(** * Energie dashboard: the data pipeline of [app.py]

    The data preparation, the filter and the aggregations of the Streamlit
    script [src/app.py], written as Rocq functions, and the properties of
    these steps that the specification states.

    How the script is modelled.
    - A pandas [DataFrame] is a [frame]: its row labels and, per column
      label, one typed [column].  The numeric columns of the CSV file are
      [float64] (IEEE binary64, Rocq's primitive floats, missing = NaN), its
      text columns hold [option string] (missing = [None]), the parsed
      timestamp column holds [option Timestamp] (missing = NaT), the year
      and the month hold [option Z].  On a column whose dtype is not the one
      the schema of the file gives it, an operation raises [TypeError].
    - Python objects live in a heap: a variable of the script is a location;
      [frame\[mask\]], [.copy()] and every aggregation allocate a new frame;
      [frame\[name\] = values] updates the frame at its location.
    - Every Streamlit call appends one [event], with the data it is given,
      to the display log; the values that the radio, the select box and the
      slider return are arguments of the script.
    - The routines whose numerical details belong to pandas, numpy or Python
      (date parsing, summation, rounding, period formatting) are the
      operations of the class [Library]; every property is proved for any
      instance of it.  The conversion of the timestamp column is such a
      routine on the whole column, and it can raise. *)

From Stdlib Require Import ZArith List String Ascii Floats Lia Sorted.
From stdpp Require Import base option list strings gmap sorting.

Open Scope Z_scope.

(** ** IEEE binary64 values *)

Module F64.

Definition is_nan (x : float) : bool :=
  match Prim2SF x with S754_nan => true | _ => false end.

Definition is_inf (x : float) : bool :=
  match Prim2SF x with S754_infinity _ => true | _ => false end.

Definition is_zero (x : float) : bool :=
  match Prim2SF x with S754_zero _ => true | _ => false end.

(** The comparison of two values; [None] when one is NaN. *)
Definition cmp (x y : float) : option comparison :=
  SFcompare (Prim2SF x) (Prim2SF y).

Definition below (c : option comparison) : Prop := c = Some Lt \/ c = Some Eq.

End F64.

(** ** Outcomes of a Python computation *)

Inductive exn :=
| KeyError (label : string)   (* a column label that the frame does not have *)
| NotASeries (label : string) (* a duplicated label selects a frame; every
                                 consumer in the script needs a Series *)
| TypeError
| ValueError
| OverflowError
| StopException.              (* raised by [st.stop()] *)

Inductive outcome (A : Type) :=
| Ok (a : A)
| Raise (e : exn).
Arguments Ok {A} a.
Arguments Raise {A} e.

#[global] Instance outcome_ret : MRet outcome := fun A a => Ok a.
#[global] Instance outcome_bind : MBind outcome := fun A B k x =>
  match x with Ok a => k a | Raise e => Raise e end.

(** [for x in xs: f(x)], collecting the results; the first exception stops
    the loop. *)
Fixpoint traverse {A B} (f : A -> outcome B) (xs : list A) : outcome (list B) :=
  match xs with
  | [] => Ok []
  | x :: xs' => y ← f x; ys ← traverse f xs'; Ok (y :: ys)
  end.

(** ** Cells, columns and frames *)

Record Timestamp := mkTs {
  year : Z; month : Z; day : Z; hour : Z; minute : Z; second : Z }.

Inductive column :=
| Float64 (xs : list float)
| Object (xs : list (option string))
| Datetime (xs : list (option Timestamp))
| IntNA (xs : list (option Z))   (* [.dt.year], [.dt.month]: an integer, or
                                    missing where the timestamp is NaT *)
| Bool (xs : list bool).

Definition col_length (c : column) : nat :=
  match c with
  | Float64 xs => length xs
  | Object xs => length xs
  | Datetime xs => length xs
  | IntNA xs => length xs
  | Bool xs => length xs
  end.

Record frame := mkFrame {
  index : list Z;                      (* row labels *)
  columns : list (string * column) }.  (* in column order *)

Definition names (f : frame) : list string := map fst (columns f).

(** [frame\[label\]] *)
Definition getitem (f : frame) (label : string) : outcome column :=
  match List.filter (fun p => String.eqb (fst p) label) (columns f) with
  | [] => Raise (KeyError label)
  | [(_, c)] => Ok c
  | _ => Raise (NotASeries label)
  end.

(** [frame\[label\] = c]: every column that carries the label is replaced; a
    new label is appended.  [c] was computed from the frame itself, so its
    rows are aligned with the frame's. *)
Definition has_label (label : string) (cs : list (string * column)) : bool :=
  existsb (fun p => String.eqb (fst p) label) cs.

Definition replace_col (label : string) (c : column) (cs : list (string * column))
  : list (string * column) :=
  if has_label label cs
  then map (fun p => if String.eqb (fst p) label then (fst p, c) else p) cs
  else cs ++ [(label, c)].

Definition with_column (f : frame) (label : string) (c : column) : outcome frame :=
  if Nat.eqb (col_length c) (length (index f))
  then Ok (mkFrame (index f) (replace_col label c (columns f)))
  else Raise ValueError.

Definition as_float (c : column) : outcome (list float) :=
  match c with Float64 xs => Ok xs | _ => Raise TypeError end.

(** Selection of the positions where the mask is [True]. *)
Fixpoint select {A} (mask : list bool) (xs : list A) : list A :=
  match mask, xs with
  | b :: mask', x :: xs' => if b then x :: select mask' xs' else select mask' xs'
  | _, _ => []
  end.

Definition col_select (mask : list bool) (c : column) : column :=
  match c with
  | Float64 xs => Float64 (select mask xs)
  | Object xs => Object (select mask xs)
  | Datetime xs => Datetime (select mask xs)
  | IntNA xs => IntNA (select mask xs)
  | Bool xs => Bool (select mask xs)
  end.

(** [frame\[mask\]] with a boolean Series computed on the same frame: a new
    frame that keeps, in order, the rows where the mask holds, with their
    labels. *)
Definition bool_index (f : frame) (mask : list bool) : frame :=
  mkFrame (select mask (index f))
          (map (fun p => (fst p, col_select mask (snd p))) (columns f)).

(** [a & b] on two boolean Series of one frame *)
Fixpoint mask_and (a b : list bool) : list bool :=
  match a, b with
  | x :: a', y :: b' => (x && y) :: mask_and a' b'
  | _, _ => []
  end.

(** [series == label]: a text cell is compared with the label, a missing
    cell and a cell of any other type are different from it. *)
Definition eq_label (c : column) (label : option string) : list bool :=
  match c, label with
  | Object xs, Some s =>
      map (fun o => match o with Some t => String.eqb t s | None => false end) xs
  | _, _ => repeat false (col_length c)
  end.

(** [series.between(lo, hi)], both ends included; a missing value is in no
    interval. *)
Definition between (c : column) (lo hi : Z) : outcome (list bool) :=
  match c with
  | IntNA xs =>
      Ok (map (fun o => match o with
                        | Some y => (lo <=? y) && (y <=? hi)
                        | None => false
                        end) xs)
  | _ => Raise TypeError
  end.

(** ** Library routines

    The routines of pandas, numpy and Python whose result is fixed by the
    library and not by the script.  The reducers receive the cells of one
    column (or of one group, or of one row) in row order and skip NaN. *)

Class Library := {
  (* [pd.to_datetime(series, errors="coerce")] on a column of text.  The
     column is converted as a whole: the call raises for some columns
     although [errors="coerce"] is given (cells with different UTC offsets:
     "Mixed timezones"; where an earlier pandas returns a column of objects
     instead, [.dt] raises on line 34), and otherwise fixes how each cell is
     read (the format is inferred from the column); [None] is NaT *)
  to_datetime : list (option string) -> outcome (string -> option Timestamp);
  (* the same on a numeric cell *)
  to_datetime_num : float -> option Timestamp;
  (* [Series.sum()], [Series.mean()] *)
  nansum : list float -> float;
  nanmean : list float -> float;
  (* [groupby(...).sum()], [groupby(...).mean()] on one group *)
  group_sum : list float -> float;
  group_mean : list float -> float;
  (* [DataFrame.sum(axis=1)] on one row *)
  row_sum : list float -> float;
  (* [round(x, ndigits)] *)
  round_to : float -> Z -> float;
  (* [.dt.to_period("M").astype(str)] on a defined timestamp *)
  period_month : Timestamp -> string
}.

(** ** Column labels: [str.strip] *)

Module Strip.

(** The UTF-8 encodings of the characters Python treats as white space:
    U+0009..U+000D, U+001C..U+0020, U+0085, U+00A0, U+1680,
    U+2000..U+200A, U+2028, U+2029, U+202F, U+205F, U+3000. *)
Definition space1 (a : ascii) : bool :=
  let n := N_of_ascii a in
  ((9 <=? n) && (n <=? 13) || (28 <=? n) && (n <=? 32))%N.

Definition space2 (a b : ascii) : bool :=
  let m := N_of_ascii a in let n := N_of_ascii b in
  ((m =? 194) && ((n =? 133) || (n =? 160)))%N.

Definition space3 (a b c : ascii) : bool :=
  let l := N_of_ascii a in let m := N_of_ascii b in let n := N_of_ascii c in
  ((l =? 225) && (m =? 154) && (n =? 128)
   || (l =? 226) && (m =? 128)
      && ((128 <=? n) && (n <=? 138) || (n =? 168) || (n =? 169) || (n =? 175))
   || (l =? 226) && (m =? 129) && (n =? 159)
   || (l =? 227) && (m =? 128) && (n =? 128))%N.

(** One leading white-space character removed, if there is one. *)
Definition drop_space (s : list ascii) : option (list ascii) :=
  match s with
  | a :: s1 =>
      if space1 a then Some s1 else
      match s1 with
      | b :: s2 =>
          if space2 a b then Some s2 else
          match s2 with
          | c :: s3 => if space3 a b c then Some s3 else None
          | [] => None
          end
      | [] => None
      end
  | [] => None
  end.

(** The same at the end of the text, on the reversed bytes. *)
Definition drop_space_rev (s : list ascii) : option (list ascii) :=
  match s with
  | a :: s1 =>
      if space1 a then Some s1 else
      match s1 with
      | b :: s2 =>
          if space2 b a then Some s2 else
          match s2 with
          | c :: s3 => if space3 c b a then Some s3 else None
          | [] => None
          end
      | [] => None
      end
  | [] => None
  end.

Fixpoint iterate (step : list ascii -> option (list ascii)) (fuel : nat)
  (s : list ascii) : list ascii :=
  match fuel with
  | O => s
  | S fuel' => match step s with Some s' => iterate step fuel' s' | None => s end
  end.

Definition lstrip (s : list ascii) : list ascii := iterate drop_space (length s) s.
Definition rstrip (s : list ascii) : list ascii :=
  rev (iterate drop_space_rev (length s) (rev s)).

Definition strip (s : string) : string :=
  string_of_list_ascii (rstrip (lstrip (list_ascii_of_string s))).

End Strip.

(** ** Column labels of the data set *)

Definition DATE : string := "Date - Heure".
Definition REGION : string := "Région".
Definition ANNEE : string := "Année".
Definition MOIS : string := "Mois".
Definition CONSO : string := "Consommation (MW)".
Definition PROD : string := "Production_totale".
Definition ECH : string := "Ech. physiques (MW)".
Definition DELTA_PC : string := "delta_prod_cons".

(** ** Orders on group keys *)

Definition ts_fields (t : Timestamp) : list Z :=
  [year t; month t; day t; hour t; minute t; second t].

Fixpoint lex_leb (a b : list Z) : bool :=
  match a, b with
  | x :: a', y :: b' => (x <? y) || (x =? y) && lex_leb a' b'
  | _, _ => true
  end.

Definition ts_leb (t u : Timestamp) : bool := lex_leb (ts_fields t) (ts_fields u).

Definition ts_eqb (t u : Timestamp) : bool :=
  bool_decide (ts_fields t = ts_fields u).

(** ** Grouping

    [groupby(label)] (with pandas' defaults [sort=True], [dropna=True]): the
    distinct defined keys in ascending order and, per key, the mask of the
    rows of its group. *)

Section Grouping.
Context {K : Type} (eqb leb : K -> K -> bool).

Fixpoint insert_key (k : K) (ks : list K) : list K :=
  match ks with
  | [] => [k]
  | x :: ks' =>
      if eqb k x then ks
      else if leb k x then k :: ks
      else x :: insert_key k ks'
  end.

Definition distinct_sorted (ks : list K) : list K := foldr insert_key [] ks.

Definition group_mask (k : K) (ks : list (option K)) : list bool :=
  map (fun o => match o with Some x => eqb x k | None => false end) ks.

Definition grouping (ks : list (option K)) : list (K * list bool) :=
  map (fun k => (k, group_mask k ks)) (distinct_sorted (omap id ks)).
End Grouping.

(** The key column of the groups, and their masks. *)
Definition group_by (c : column) : outcome (column * list (list bool)) :=
  match c with
  | Object ks =>
      let g := grouping String.eqb String.leb ks in
      Ok (Object (map (fun p => Some (fst p)) g), map snd g)
  | IntNA ks =>
      let g := grouping Z.eqb Z.leb ks in
      Ok (IntNA (map (fun p => Some (fst p)) g), map snd g)
  | Datetime ks =>
      let g := grouping ts_eqb ts_leb ks in
      Ok (Datetime (map (fun p => Some (fst p)) g), map snd g)
  | _ => Raise TypeError
  end.

(** One numeric column reduced per group. *)
Definition reduce_groups (red : list float -> float) (masks : list (list bool))
  (xs : list float) : list float :=
  map (fun m => red (select m xs)) masks.

Definition range_index (n : nat) : list Z := map Z.of_nat (seq 0 n).

(** [f.groupby(by)\[cols\].red().reset_index()] *)
Definition groupby_reset (red : list float -> float) (f : frame) (by_ : string)
  (cols : list string) : outcome frame :=
  kc ← getitem f by_;
  g ← group_by kc;
  vs ← traverse (fun label =>
                   c ← getitem f label;
                   xs ← as_float c;
                   Ok (label, Float64 (reduce_groups red g.2 xs))) cols;
  Ok (mkFrame (range_index (length g.2)) ((by_, g.1) :: vs)).

(** [f.groupby("Région")\[col\].red()]: a Series indexed by region label. *)
Definition groupby_region (red : list float -> float) (f : frame) (col : string)
  : outcome (list (string * float)) :=
  kc ← getitem f REGION;
  match kc with
  | Object ks =>
      c ← getitem f col;
      xs ← as_float c;
      Ok (map (fun p => (fst p, red (select (snd p) xs)))
              (grouping String.eqb String.leb ks))
  | _ => Raise TypeError
  end.

(** ** Ordering a Series by value *)

Section ByValue.
Context {K : Type}.

(** Stable insertion: before the first entry that is not smaller. *)
Fixpoint insert_value (x : K * float) (l : list (K * float)) : list (K * float) :=
  match l with
  | [] => [x]
  | y :: l' => if (snd x <=? snd y)%float then x :: l else y :: insert_value x l'
  end.

Definition defined (p : K * float) : bool := negb (F64.is_nan (snd p)).

(** [Series.sort_values()]: ascending, entries of equal value in their
    original order, NaN entries last. *)
Definition sort_values (s : list (K * float)) : list (K * float) :=
  foldr insert_value [] (List.filter defined s)
    ++ List.filter (fun p => negb (defined p)) s.

(** [Series.nsmallest(n)] (with its default [keep="first"]): the first [n]
  entries in ascending order of value, the earlier entry first among equal
  values, the NaN entries after all others. *)
Definition nsmallest (n : nat) (s : list (K * float)) : list (K * float) :=
  take n (sort_values s).
End ByValue.

(** ** Element-wise operations on the Series of one frame *)

Fixpoint zip_with_float (op : float -> float -> float) (a b : list float) : list float :=
  match a, b with
  | x :: a', y :: b' => op x y :: zip_with_float op a' b'
  | _, _ => []
  end.

(** [a - b] *)
Definition series_sub (a b : column) : outcome column :=
  xs ← as_float a; ys ← as_float b;
  Ok (Float64 (zip_with_float PrimFloat.sub xs ys)).

(** [a * k] *)
Definition series_scale (a : column) (k : float) : outcome column :=
  xs ← as_float a; Ok (Float64 (map (fun x => x * k)%float xs)).

(** [a < 0] *)
Definition series_negative (a : column) : outcome (list bool) :=
  xs ← as_float a; Ok (map (fun x => x <? 0)%float xs).

(** [a.apply(lambda x: -x if x < 0 else 0)] *)
Definition deficit (x : float) : float := if (x <? 0)%float then (- x)%float else 0%float.

Definition series_deficit (a : column) : outcome (list float) :=
  xs ← as_float a; Ok (map deficit xs).

(** [series.dt.year], [series.dt.month] *)
Definition dt_field (field : Timestamp -> Z) (c : column) : outcome column :=
  match c with
  | Datetime ts => Ok (IntNA (map (fun o => field <$> o) ts))
  | _ => Raise TypeError      (* AttributeError: no [.dt] accessor *)
  end.

(** [series.dt.month.isin(months)] *)
Definition month_isin (c : column) (months : list Z) : outcome (list bool) :=
  match c with
  | Datetime ts =>
      Ok (map (fun o => match o with
                        | Some t => existsb (Z.eqb (month t)) months
                        | None => false
                        end) ts)
  | _ => Raise TypeError
  end.

(** [series.isin(labels)] on a text column *)
Definition label_isin (c : column) (labels : list string) : list bool :=
  match c with
  | Object xs =>
      map (fun o => match o with
                    | Some s => existsb (String.eqb s) labels
                    | None => false
                    end) xs
  | _ => repeat false (col_length c)
  end.

(** [int(x)]: truncation towards zero; NaN and the infinities raise. *)
Definition py_int (x : float) : outcome Z :=
  match Prim2SF x with
  | S754_nan => Raise ValueError
  | S754_infinity _ => Raise OverflowError
  | S754_zero _ => Ok 0
  | S754_finite s m e =>
      let a := if (0 <=? e) then Z.shiftl (Z.pos m) e else Z.shiftr (Z.pos m) (- e) in
      Ok (if s then - a else a)
  end.

(** ** The interpreter state: heap of frames and display log *)

Inductive payload :=
| Text (s : string)
| Labels (l : list string)
| Choice (o : option string)
| Table (f : frame)
| Values (c : column)
| Series (l : list (string * float))
| Number (x : float)
| Integer (z : Z).

(** One Streamlit call: the function and the data it is given. *)
Record event := Event { widget : string; args : list payload }.

Abbreviation loc := nat.

Record world := World {
  heap : list frame;       (* the frame objects, by allocation order *)
  display : list event }.  (* what has been sent to the page so far *)

Definition M (A : Type) : Type := world -> outcome A * world.

#[global] Instance M_ret : MRet M := fun A a w => (Ok a, w).
#[global] Instance M_bind : MBind M := fun A B k m w =>
  match m w with
  | (Ok a, w') => k a w'
  | (Raise e, w') => (Raise e, w')
  end.

Definition lift {A} (x : outcome A) : M A := fun w => (x, w).

(** A new frame object *)
Definition new (f : frame) : M loc :=
  fun w => (Ok (length (heap w)), World (heap w ++ [f]) (display w)).

Definition load (l : loc) : M frame :=
  fun w => match heap w !! l with
           | Some f => (Ok f, w)
           | None => (Raise ValueError, w)
           end.

(** In-place update of the object at [l] *)
Definition store (l : loc) (f : frame) : M unit :=
  fun w => (Ok tt, World (<[l := f]> (heap w)) (display w)).

Definition emit (name : string) (data : list payload) : M unit :=
  fun w => (Ok tt, World (heap w) (display w ++ [Event name data])).

(** [st.stop()] *)
Definition st_stop {A} : M A := lift (Raise StopException).

(** [frame\[label\] = c] on the object at [l] *)
Definition assign (l : loc) (label : string) (c : column) : M unit :=
  f ← load l; f' ← lift (with_column f label c); store l f'.

(** [frame.copy()] *)
Definition copy (l : loc) : M loc := f ← load l; new f.

(** [frame.columns = labels] on the object at [l] *)
Definition with_names (f : frame) (labels : list string) : outcome frame :=
  if Nat.eqb (length labels) (length (columns f))
  then Ok (mkFrame (index f) (zip labels (map snd (columns f))))
  else Raise ValueError.

Definition rename (l : loc) (labels : list string) : M unit :=
  f ← load l; f' ← lift (with_names f labels); store l f'.

(** [frame.head()] *)
Definition head_rows (f : frame) : frame :=
  mkFrame (take 5 (index f))
          (map (fun p => (fst p, col_select (repeat true 5) (snd p))) (columns f)).

(** ** The script *)

Inductive page :=
| Accueil | Exploration | Visualisations | RisqueNational | FocusHiver
| FocusENR | Synthese | Conclusion | Scenario2030.

Definition pages : list string :=
  ["Accueil"; "Exploration"; "Visualisations"; "Risque national"; "Focus Hiver";
   "Focus ENR"; "Synthèse"; "Conclusion"; "Scénario 2030"].

Section Script.
Context {lib : Library}.

(** *** Schema check (lines 19-25) *)

Definition has_date (f : frame) : bool := existsb (String.eqb DATE) (names f).

Definition validate (df : loc) : M unit :=
  f ← load df;
  emit "write" [Text "Colonnes disponibles dans le fichier :"];;
  emit "write" [Labels (names f)];;
  if has_date f then mret tt
  else emit "error" [Text "La colonne 'Date - Heure' est introuvable dans le fichier."];;
       st_stop.

(** *** Temporal enrichment (lines 28-35) *)

Definition to_datetime_col (c : column) : outcome column :=
  match c with
  | Object xs =>
      read ← to_datetime xs; Ok (Datetime (map (fun o => o ≫= read) xs))
  | Float64 xs => Ok (Datetime (map to_datetime_num xs))
  | Datetime ts => Ok (Datetime ts)
  | _ => Raise TypeError
  end.

Definition enrich (df : loc) : M unit :=
  f ← load df;
  rename df (map Strip.strip (names f));;
  f ← load df; c ← lift (getitem f DATE); d ← lift (to_datetime_col c);
  assign df DATE d;;
  f ← load df; c ← lift (getitem f DATE); y ← lift (dt_field year c);
  assign df ANNEE y;;
  f ← load df; c ← lift (getitem f DATE); m ← lift (dt_field month c);
  assign df MOIS m.

(** *** Side bar (lines 41-49) *)

(** [sorted(series.dropna().unique())] *)
Definition regions_of (c : column) : outcome (list string) :=
  match c with
  | Object xs => Ok (distinct_sorted String.eqb String.leb (omap id xs))
  | _ => Raise TypeError
  end.

(** [int(series.min())], [int(series.max())]; with no defined year the
    minimum is NaN and [int] raises. *)
Definition year_bounds (c : column) : outcome (Z * Z) :=
  match c with
  | IntNA ys =>
      match omap id ys with
      | [] => Raise ValueError
      | y :: ys' => Ok (foldr Z.min y ys', foldr Z.max y ys')
      end
  | _ => Raise TypeError
  end.

Definition sidebar (df : loc) : M unit :=
  emit "set_page_config" [Text "Énergie France – Dashboard"];;
  emit "sidebar.title" [Text " Navigation"];;
  emit "sidebar.radio" [Text "Aller à :"; Labels pages];;
  f ← load df; r ← lift (getitem f REGION); rs ← lift (regions_of r);
  emit "sidebar.selectbox" [Text "Sélectionnez une région :"; Labels rs];;
  f ← load df; y ← lift (getitem f ANNEE); b ← lift (year_bounds y);
  emit "sidebar.slider" [Text "Filtrer par année"; Integer b.1; Integer b.2;
                         Integer 2018; Integer 2023].

(** *** Filter (line 51)

    [df\[(df\["Région"\] == region) & (df\["Année"\].between( *annee))\]] *)
Definition filter_rows (f : frame) (region : option string) (annee : Z * Z)
  : outcome frame :=
  r ← getitem f REGION;
  y ← getitem f ANNEE;
  m ← between y annee.1 annee.2;
  Ok (bool_index f (mask_and (eq_label r region) m)).

(** *** Derived metrics *)

(** [frame\["delta"\] = frame\["Production_totale"\] - frame\["Consommation (MW)"\]]
    (lines 90, 119, 164) *)
Definition delta_of (f : frame) : outcome column :=
  p ← getitem f PROD; c ← getitem f CONSO; series_sub p c.

Definition add_delta (l : loc) : M unit :=
  f ← load l; d ← lift (delta_of f); assign l "delta" d.

(** [df.groupby("Date - Heure")\[\["Consommation (MW)", "Production_totale"\]\].sum().reset_index()]
    (lines 118, 163) *)
Definition national (f : frame) : outcome frame :=
  groupby_reset group_sum f DATE [CONSO; PROD].

(** line 189 *)
Definition dependance (f : frame) : outcome float :=
  e ← getitem f ECH; es ← as_float e;
  c ← getitem f CONSO; cs ← as_float c;
  Ok (nansum es / nansum cs)%float.

(** line 256 *)
Definition region_means (f : frame) : outcome (list (string * float)) :=
  groupby_region group_mean f DELTA_PC.

Definition top_risque (f : frame) : outcome (list string) :=
  s ← region_means f; Ok (map fst (nsmallest 5 s)).

(** [series.sum()] after [apply(lambda x: -x if x < 0 else 0)], then [int]
    (lines 145-146, 266-267) *)
Definition deficit_score (c : column) : outcome Z :=
  xs ← series_deficit c; py_int (nansum xs).

(** *** Pages *)

Definition chart (kind : string) (data : list payload) : M unit :=
  emit "plotly_chart" (Text kind :: data).

(** [st.plotly_chart(px.choropleth(frame, locationmode=mode, ...))]: plotly
    validates the location mode when it builds the figure and raises
    ValueError for a mode that it does not know. *)
Definition LOCATION_MODES : list string :=
  ["ISO-3"; "USA-states"; "country names"; "geojson-id"].

Definition choropleth (mode : string) (f : frame) : M unit :=
  if existsb (String.eqb mode) LOCATION_MODES
  then chart "choropleth" [Table f]
  else lift (Raise ValueError).

(** lines 54-65 *)
Definition page_accueil : M unit :=
  emit "title" [];; emit "markdown" [].

(** lines 68-72 *)
Definition page_exploration (df_filtered : loc) (region : option string)
  (annee : Z * Z) : M unit :=
  emit "header" [];;
  emit "write" [Choice region; Integer annee.1; Integer annee.2];;
  f ← load df_filtered; emit "dataframe" [Table f];;
  f ← load df_filtered; emit "download_button" [Table f].

(** [series.dt.to_period("M").astype(str)] *)
Definition period_col (c : column) : outcome column :=
  match c with
  | Datetime ts =>
      Ok (Object (map (fun o => Some (match o with
                                      | Some t => period_month t
                                      | None => "NaT"
                                      end)) ts))
  | _ => Raise TypeError
  end.

Definition FILIERES : list string :=
  ["Nucléaire (MW)"; "Thermique (MW)"; "Hydraulique (MW)"; "Solaire (MW)";
   "Eolien (MW)"; "Bioénergies (MW)"].

(** lines 75-100 *)
Definition page_visualisations (df_filtered : loc) : M unit :=
  emit "header" [];; emit "subheader" [];;
  df_month ← copy df_filtered;
  f ← load df_month; d ← lift (getitem f DATE); p ← lift (period_col d);
  assign df_month MOIS p;;
  f ← load df_month; monthly ← lift (groupby_reset group_mean f MOIS [CONSO; PROD]);
  chart "bar" [Table monthly];;
  emit "subheader" [];;
  f ← load df_filtered;
  df_pompage ← lift (groupby_reset group_mean f ANNEE ["Pompage (MW)"]);
  chart "line" [Table df_pompage];;
  emit "subheader" [];;
  add_delta df_filtered;;
  f ← load df_filtered; chart "box" [Table f];;
  emit "subheader" [];;
  f ← load df_filtered;
  prod_filtres ← lift (groupby_reset group_mean f ANNEE FILIERES);
  chart "bar" [Table prod_filtres].

Definition HIVER : list Z := [12; 1; 2].

(** lines 103-148 *)
Definition page_risque_national (df : loc) : M unit :=
  emit "header" [];; emit "markdown" [];;
  f ← load df; nat ← lift (national f); df_nat ← new nat;
  add_delta df_nat;;
  f ← load df_nat; x ← lift (getitem f DATE); y ← lift (getitem f "delta");
  chart "scatter" [Values x; Values y];;
  emit "subheader" [];;
  f ← load df_nat; x ← lift (getitem f DATE); m ← lift (month_isin x HIVER);
  chart "line" [Table (bool_index f m)];;
  emit "subheader" [];;
  f ← load df_nat; y ← lift (getitem f "delta"); neg ← lift (series_negative y);
  emit "metric" [Integer (Z.of_nat (length (List.filter id neg)))];;
  f ← load df_nat; y ← lift (getitem f "delta"); neg ← lift (series_negative y);
  chart "histogram" [Table (bool_index f neg)];;
  emit "subheader" [];;
  f ← load df_nat; y ← lift (getitem f "delta"); score ← lift (deficit_score y);
  emit "metric" [Integer score];;
  emit "info" [].

(** lines 151-171 *)
Definition page_focus_hiver (df : loc) : M unit :=
  emit "header" [];; emit "markdown" [];;
  f ← load df; x ← lift (getitem f DATE); m ← lift (month_isin x HIVER);
  df_hiver ← new (bool_index f m);
  emit "subheader" [];;
  f ← load df_hiver; nat ← lift (national f); df_hiver_nat ← new nat;
  add_delta df_hiver_nat;;
  f ← load df_hiver_nat; chart "line" [Table f];;
  emit "subheader" [];;
  f ← load df_hiver; df_risk ← lift (groupby_region group_mean f DELTA_PC);
  chart "bar" [Series (sort_values df_risk)].

Definition ENR : list string :=
  ["Solaire (MW)"; "Eolien (MW)"; "Hydraulique (MW)"; "Bioénergies (MW)"].

(** [frame\[labels\].sum(axis=1)] *)
Definition sum_rows (f : frame) (labels : list string) : outcome column :=
  cs ← traverse (fun label => c ← getitem f label; as_float c) labels;
  Ok (Float64 (map (fun i => row_sum (omap (fun xs : list float => xs !! i) cs))
                   (seq 0 (length (index f))))).

(** lines 175-180 *)
Definition page_focus_enr (df : loc) : M unit :=
  emit "header" [];;
  df_enr ← copy df;
  f ← load df_enr; s ← lift (sum_rows f ENR); assign df_enr "Prod_ENR" s;;
  f ← load df_enr; enr_reg ← lift (groupby_region group_mean f "Prod_ENR");
  chart "bar" [Series (sort_values enr_reg)].

(** lines 183-221 *)
Definition page_synthese (df df_filtered : loc) : M unit :=
  emit "header" [];;
  f ← load df_filtered; a ← lift (getitem f "Autonomie"); xs ← lift (as_float a);
  let auto := round_to (nanmean xs * 100)%float 1 in
  f ← load df_filtered; d ← lift (getitem f DELTA_PC); ys ← lift (as_float d);
  let delta := round_to (nanmean ys) 0 in
  emit "metric" [Number auto];;
  emit "metric" [Number delta];;
  f ← load df_filtered; dep ← lift (dependance f);
  emit "metric" [Number (round_to (dep * 100)%float 1)];;
  emit "markdown" [];; emit "subheader" [];;
  (if (auto <? 30)%float then emit "error" []
   else if (auto <? 70)%float then emit "warning" []
   else emit "success" []);;
  emit "subheader" [];;
  f ← load df; g ← lift (groupby_reset group_mean f REGION [DELTA_PC]);
  df_carte ← new g;
  rename df_carte [REGION; "Delta_Moyen"];;
  f ← load df_carte; choropleth "geo" f.

(** lines 224-238 *)
Definition page_conclusion : M unit :=
  emit "header" [];; emit "markdown" [].

(** lines 241-280 *)
Definition page_scenario_2030 (df : loc) : M unit :=
  emit "header" [];; emit "markdown" [];;
  f ← load df; top ← lift (top_risque f);
  emit "write" [Labels top];;
  f ← load df; x ← lift (getitem f DATE); m ← lift (month_isin x [1; 2]);
  r ← lift (getitem f REGION);
  selected ← new (bool_index f (mask_and m (label_isin r top)));
  df_2030 ← copy selected;
  f ← load df_2030; d ← lift (getitem f DELTA_PC);
  s ← lift (series_scale d 0x1.3333333333333p+0%float);   (* 1.2 *)
  assign df_2030 "Simul_delta" s;;
  f ← load df_2030; chart "line" [Table f];;
  f ← load df_2030; s ← lift (getitem f "Simul_delta");
  total_deficit ← lift (deficit_score s);
  emit "metric" [Integer total_deficit];;
  emit "warning" [];; emit "markdown" [].

Definition render (p : page) (df df_filtered : loc) (region : option string)
  (annee : Z * Z) : M unit :=
  match p with
  | Accueil => page_accueil
  | Exploration => page_exploration df_filtered region annee
  | Visualisations => page_visualisations df_filtered
  | RisqueNational => page_risque_national df
  | FocusHiver => page_focus_hiver df
  | FocusENR => page_focus_enr df
  | Synthese => page_synthese df df_filtered
  | Conclusion => page_conclusion
  | Scenario2030 => page_scenario_2030 df
  end.

(** Lines 38-281: what runs once the enriched frame is at [df].  [p],
    [region] and [annee] are what the radio, the select box and the slider
    return. *)
Definition serve (df : loc) (p : page) (region : option string) (annee : Z * Z)
  : M unit :=
  f ← load df; emit "write" [Table (head_rows f)];;
  sidebar df;;
  f ← load df; filtered ← lift (filter_rows f region annee);
  df_filtered ← new filtered;
  render p df df_filtered region annee.

(** The whole script on the frame read from the CSV file. *)
Definition main (csv : frame) (p : page) (region : option string) (annee : Z * Z)
  : M unit :=
  df ← new csv;
  validate df;;
  enrich df;;
  serve df p region annee.

End Script.

Definition start : world := World [] [].

(** ** The frame seen row by row *)

Inductive cell :=
| CFloat (x : float)
| CText (o : option string)
| CTime (o : option Timestamp)
| CInt (o : option Z)
| CBool (b : bool).

Definition cells (c : column) : list cell :=
  match c with
  | Float64 xs => map CFloat xs
  | Object xs => map CText xs
  | Datetime xs => map CTime xs
  | IntNA xs => map CInt xs
  | Bool xs => map CBool xs
  end.

(** A row: its label and its cell under every column label. *)
Definition row : Type := Z * list (string * cell).

Fixpoint transpose (idx : list Z) (cols : list (string * list cell)) : list row :=
  match idx with
  | [] => []
  | l :: idx' =>
      (l, omap (fun p => (fun x => (fst p, x)) <$> head (snd p)) cols)
        :: transpose idx' (map (fun p => (fst p, tail (snd p))) cols)
  end.

Definition rows (f : frame) : list row :=
  transpose (index f) (map (fun p => (fst p, cells (snd p))) (columns f)).

Definition field (label : string) (r : row) : option cell :=
  snd <$> List.find (fun p => String.eqb (fst p) label) (snd r).

(** Every column has one cell per row label. *)
Definition well_formed (f : frame) : bool :=
  forallb (fun p => Nat.eqb (col_length (snd p)) (length (index f))) (columns f).

(** Column labels are pairwise different. *)
Fixpoint distinct (ls : list string) : bool :=
  match ls with
  | [] => true
  | l :: ls' => negb (existsb (String.eqb l) ls') && distinct ls'
  end.

(** The filter as the specification words it: the row's region is the
    selected one and its year lies in the closed interval. *)
Definition row_matches (region : option string) (annee : Z * Z) (r : row) : bool :=
  match field REGION r, field ANNEE r with
  | Some (CText (Some s)), Some (CInt (Some y)) =>
      bool_decide (region = Some s) && (annee.1 <=? y) && (y <=? annee.2)
  | _, _ => false
  end.

(** The order of the regions by mean delta: ascending means, equal means by
    label, regions without a mean (NaN) last. *)
Definition precedes (a b : string * float) : bool :=
  if F64.is_nan (snd a) then F64.is_nan (snd b) && String.ltb (fst a) (fst b)
  else F64.is_nan (snd b)
       || (snd a <? snd b)%float
       || (snd a =? snd b)%float && String.ltb (fst a) (fst b).

(** The mean delta of one region: the reducer on the cells of its rows. *)
Definition mean_of {lib : Library} (ks : list (option string)) (xs : list float)
  (r : string) : float :=
  group_mean (select (group_mask String.eqb r ks) xs).

(** ** A reference instance of the library

    Left-to-right sums, ISO dates [YYYY-MM-DD HH:MM:SS] with or without a
    UTC offset, rounding by scaling; the script can be evaluated with it. *)

Module Reference.

Definition sum (xs : list float) : float :=
  fold_left (fun acc x => if F64.is_nan x then acc else (acc + x)%float) xs 0%float.

Definition count (xs : list float) : Z :=
  Z.of_nat (length (List.filter (fun x => negb (F64.is_nan x)) xs)).

Definition of_Z (z : Z) : float :=
  if z <? 0 then (- PrimFloat.of_uint63 (Uint63.of_Z (- z)))%float
  else PrimFloat.of_uint63 (Uint63.of_Z z).

Definition mean (xs : list float) : float :=
  if count xs =? 0 then nan else (sum xs / of_Z (count xs))%float.

(** Nearest integer, ties to even *)
Definition rint (x : float) : float :=
  let big := 0x1p+52%float in
  if (PrimFloat.abs x <? big)%float
  then if (x <? 0)%float then (x - big + big)%float else (x + big - big)%float
  else x.

Fixpoint pow10 (n : nat) : float :=
  match n with O => 1%float | S n' => (10 * pow10 n')%float end.

Definition round (x : float) (ndigits : Z) : float :=
  let p := pow10 (Z.to_nat ndigits) in (rint (x * p) / p)%float.

Definition digit (a : ascii) : option Z :=
  let n := Z.of_N (N_of_ascii a) in
  if (48 <=? n) && (n <=? 57) then Some (n - 48) else None.

Fixpoint number (acc : Z) (s : list ascii) : option Z :=
  match s with
  | [] => Some acc
  | a :: s' => d ← digit a; number (10 * acc + d) s'
  end.

Definition sep (a : ascii) (expected : string) : option unit :=
  if String.eqb (String a EmptyString) expected then Some tt else None.

Definition parse_date (s : string) : option Timestamp :=
  match list_ascii_of_string s with
  | [y1; y2; y3; y4; a; m1; m2; b; d1; d2; c; h1; h2; e; n1; n2; g; s1; s2] =>
      _ ← sep a "-"; _ ← sep b "-"; _ ← sep c " "; _ ← sep e ":"; _ ← sep g ":";
      y ← number 0 [y1; y2; y3; y4]; m ← number 0 [m1; m2]; d ← number 0 [d1; d2];
      h ← number 0 [h1; h2]; n ← number 0 [n1; n2]; z ← number 0 [s1; s2];
      if (1 <=? m) && (m <=? 12) && (1 <=? d) && (d <=? 31)
         && (h <? 24) && (n <? 60) && (z <? 60)
      then Some (mkTs y m d h n z) else None
  | _ => None
  end.

(** A UTC offset [+HH:MM] or [-HH:MM], in minutes *)
Definition parse_offset (s : list ascii) : option Z :=
  match s with
  | [sign; h1; h2; c; m1; m2] =>
      _ ← sep c ":";
      h ← number 0 [h1; h2]; m ← number 0 [m1; m2];
      if (h <? 24) && (m <? 60)
      then if String.eqb (String sign EmptyString) "+" then Some (60 * h + m)
           else if String.eqb (String sign EmptyString) "-" then Some (- (60 * h + m))
           else None
      else None
  | _ => None
  end.

(** One cell: the local date and time, and the UTC offset when the cell
    carries one. *)
Definition parse_cell (s : string) : option (Timestamp * option Z) :=
  let l := list_ascii_of_string s in
  match drop 19 l with
  | [] => t ← parse_date s; Some (t, None)
  | rest =>
      t ← parse_date (string_of_list_ascii (take 19 l));
      z ← parse_offset rest; Some (t, Some z)
  end.

Definition same_offset (a b : option Z) : bool :=
  match a, b with
  | Some x, Some y => x =? y
  | None, None => true
  | _, _ => false
  end.

Definition with_offset (a b : option Z) : bool :=
  match a, b with
  | Some _, Some _ | None, None => true
  | _, _ => false
  end.

(** A cell read in the format of a column whose cells carry the offset
    [z], or none. *)
Definition read_as (z : option Z) (s : string) : option Timestamp :=
  c ← parse_cell s; if with_offset z (snd c) then Some (fst c) else None.

(** The column as a whole.  The first cell that is read fixes the format,
    with or without offset; a cell of the other format is NaT, and two
    cells with different offsets raise. *)
Definition parse_column (xs : list (option string))
  : outcome (string -> option Timestamp) :=
  match omap (fun o => o ≫= parse_cell) xs with
  | [] => Ok (read_as None)
  | (_, z) :: cells =>
      if forallb (fun c => negb (with_offset z (snd c)) || same_offset z (snd c)) cells
      then Ok (read_as z)
      else Raise ValueError
  end.

(** Nanoseconds since 1970-01-01 to a civil date *)
Definition of_epoch (ns : Z) : Timestamp :=
  let secs := ns / 1000000000 in
  let days := secs / 86400 in
  let rest := secs mod 86400 in
  let z := days + 719468 in
  let era := z / 146097 in
  let doe := z mod 146097 in
  let yoe := (doe - doe / 1460 + doe / 36524 - doe / 146096) / 365 in
  let doy := doe - (365 * yoe + yoe / 4 - yoe / 100) in
  let mp := (5 * doy + 2) / 153 in
  let d := doy - (153 * mp + 2) / 5 + 1 in
  let m := if mp <? 10 then mp + 3 else mp - 9 in
  let y := yoe + era * 400 + (if m <=? 2 then 1 else 0) in
  mkTs y m d (rest / 3600) (rest mod 3600 / 60) (rest mod 60).

Definition parse_number (x : float) : option Timestamp :=
  match py_int x with Ok ns => Some (of_epoch ns) | Raise _ => None end.

Definition digit_char (d : Z) : ascii := ascii_of_N (Z.to_N (48 + d mod 10)).

Definition period (t : Timestamp) : string :=
  string_of_list_ascii
    [digit_char (year t / 1000); digit_char (year t / 100); digit_char (year t / 10);
     digit_char (year t); "-"%char; digit_char (month t / 10); digit_char (month t)].

#[export] Instance library : Library := {|
  to_datetime := parse_column;
  to_datetime_num := parse_number;
  nansum := sum;
  nanmean := mean;
  group_sum := sum;
  group_mean := mean;
  row_sum := sum;
  round_to := round;
  period_month := period |}.

End Reference.

(** ** A small data set *)

Module Sample.

Definition csv : frame :=
  mkFrame [0; 1; 2; 3; 4; 5]
    [ (DATE, Object [Some "2019-01-15 12:00:00"; Some "2019-01-15 12:00:00";
                     Some "2019-07-01 12:00:00"; Some "2019-07-01 12:00:00";
                     Some "2016-02-01 00:00:00"; Some "n/a"]);
      (REGION, Object [Some "Bretagne"; Some "Normandie"; Some "Bretagne";
                       Some "Normandie"; Some "Occitanie"; Some "Bretagne"]);
      (CONSO, Float64 [1000; 800; 700; 600; 0; 900]%float);
      (PROD, Float64 [950; 1200; 400; 900; 50; 100]%float);
      ("Nucléaire (MW)", Float64 [0; 1000; 0; 700; 0; 0]%float);
      ("Thermique (MW)", Float64 [500; 100; 100; 100; 0; 50]%float);
      ("Hydraulique (MW)", Float64 [50; 50; 50; 50; 20; 10]%float);
      ("Solaire (MW)", Float64 [0; 0; 100; 50; 30; 0]%float);
      ("Eolien (MW)", Float64 [350; 50; 100; 0; 0; 40]%float);
      ("Bioénergies (MW)", Float64 [50; 0; 50; 0; 0; 0]%float);
      ("Pompage (MW)", Float64 [0; 0; 0; 0; 0; 0]%float);
      (ECH, Float64 [50; -400; 300; -300; 25; 800]%float);
      ("Autonomie", Float64 [0.5; 0.125; 0.5; 0.25; nan; 0.0625]%float);
      (DELTA_PC, Float64 [-50; 400; -300; 300; 50; -800]%float) ].

(** The same file with a blank before the timestamp label. *)
Definition padded : frame :=
  mkFrame (index csv)
    (map (fun p => if String.eqb (fst p) DATE then (" Date - Heure"%string, snd p) else p)
         (columns csv)).


(** The data set after the enrichment of lines 28-35. *)
Definition enriched : frame := Eval vm_compute in
  match enrich (lib := Reference.library) 0 (World [csv] []) with
  | (_, w) => match heap w !! 0%nat with Some f => f | None => csv end
  end.

End Sample.

(** ** Notions used in the statements and their proofs *)

(** The order of the labels: byte-wise, which on UTF-8 text is the order
    of the code points. *)
Definition label_lt (a b : string) : Prop := String.ltb a b = true.

Definition count_true (m : list bool) : nat := length (List.filter id m).

Definition heads (cols : list (string * list cell)) : list (string * cell) :=
  omap (fun p => (fun x => (fst p, x)) <$> head (snd p)) cols.

Definition tails (cols : list (string * list cell)) : list (string * list cell) :=
  map (fun p => (fst p, tail (snd p))) cols.

Definition selected (m : list bool) (cols : list (string * list cell))
  : list (string * list cell) :=
  map (fun p => (fst p, select m (snd p))) cols.

Definition height (n : nat) (cols : list (string * list cell)) : Prop :=
  Forall (fun p => length (snd p) = n) cols.

Definition cell_columns (f : frame) : list (string * list cell) :=
  map (fun p => (fst p, cells (snd p))) (columns f).

Definition region_cell (region : option string) (c : cell) : bool :=
  match c with CText (Some s) => bool_decide (region = Some s) | _ => false end.

Definition year_cell (annee : Z * Z) (c : cell) : bool :=
  match c with CInt (Some y) => (annee.1 <=? y) && (y <=? annee.2) | _ => false end.

Definition relabel (g : string -> string) (cs : list (string * column))
  : list (string * column) :=
  map (fun p => (g (fst p), snd p)) cs.

Definition above (x : string * float) (y : string * float) : Prop :=
  defined y = true /\ label_lt (fst x) (fst y).

Definition by_label (a b : string * float) : Prop := label_lt (fst a) (fst b).

(** Frames that a computation leaves alone.

    [keeps h m Q]: run in a heap that starts with the frames [h], the
    computation [m] changes none of them (it may allocate and update frames
    after them), and a result it returns satisfies [Q]. *)

Definition keeps {A} (h : list frame) (m : M A) (Q : A -> Prop) : Prop :=
  forall ext d,
    (exists ext', heap (m (World (h ++ ext) d)).2 = h ++ ext')
    /\ forall a, (m (World (h ++ ext) d)).1 = Ok a -> Q a.

Definition fresh_for (h : list frame) (l : loc) : Prop := (length h <= l)%nat.
Definition any {A} (a : A) : Prop := True.

(** Computations that do not read one frame.

    [alike lf w1 w2]: the two worlds show the same display and hold the same
    frames except, possibly, at [lf].  [blind lf m Q]: run in two such
    worlds, [m] returns the same result and leaves two such worlds. *)

Definition alike (lf : loc) (w1 w2 : world) : Prop :=
  display w1 = display w2
  /\ length (heap w1) = length (heap w2)
  /\ (lf < length (heap w1))%nat
  /\ forall l, l <> lf -> heap w1 !! l = heap w2 !! l.

Definition blind {A} (lf : loc) (m : M A) (Q : A -> Prop) : Prop :=
  forall w1 w2, alike lf w1 w2 ->
    (m w1).1 = (m w2).1
    /\ alike lf (m w1).2 (m w2).2
    /\ forall a, (m w1).1 = Ok a -> Q a.

Definition other_than (lf l : loc) : Prop := l <> lf.

(** What a run shows: its result and its display. *)
Definition same_view {A} (x y : outcome A * world) : Prop :=
  x.1 = y.1 /\ display x.2 = display y.2.


(** ** The selections of the pages Risque national, Focus Hiver and
    Scénario 2030 *)

(** [df\[df\["Date - Heure"\].dt.month.isin(months)\]] (lines 132, 160) *)
Definition select_months (f : frame) (months : list Z) : outcome frame :=
  x ← getitem f DATE; m ← month_isin x months; Ok (bool_index f m).

(** [df\[df\["Date - Heure"\].dt.month.isin(\[1, 2\]) & df\["Région"\].isin(top)\]]
    (line 260) *)
Definition scenario_rows (f : frame) (top : list string) : outcome frame :=
  x ← getitem f DATE; m ← month_isin x [1; 2];
  r ← getitem f REGION;
  Ok (bool_index f (mask_and m (label_isin r top))).

Definition month_cell (months : list Z) (c : cell) : bool :=
  match c with
  | CTime (Some t) => existsb (Z.eqb (month t)) months
  | _ => false
  end.

Definition label_cell (labels : list string) (c : cell) : bool :=
  match c with
  | CText (Some s) => existsb (String.eqb s) labels
  | _ => false
  end.

(** The row has a timestamp, and its month is one of [months]. *)
Definition row_in_months (months : list Z) (r : row) : bool :=
  match field DATE r with Some c => month_cell months c | None => false end.

(** The row has a region, and it is one of [labels]. *)
Definition row_in_regions (labels : list string) (r : row) : bool :=
  match field REGION r with Some c => label_cell labels c | None => false end.

(** ** Further notions used in the statements *)

#[global] Instance timestamp_eq_dec : EqDecision Timestamp.
Proof. solve_decision. Defined.

(** Strictly earlier, field by field from the year to the second. *)
Definition ts_lt (t u : Timestamp) : Prop := ts_leb t u = true /\ t <> u.

(** The order of a sorted series: ascending values, the entries without a
    value (NaN) last. *)
Definition ascending (a b : string * float) : bool :=
  F64.is_nan (snd b) || negb (F64.is_nan (snd a)) && (snd a <=? snd b)%float.

(** The bytes of a label. *)
Definition bytes (s : string) : list ascii := list_ascii_of_string s.

(** The display of a computation extends the display it started with. *)
Definition grows {A} (m : M A) : Prop :=
  forall w, exists ext, display (m w).2 = display w ++ ext.

(** A computation that ends in an exception in every world. *)
Definition raises {A} (m : M A) : Prop :=
  forall w, exists e, (m w).1 = Raise e.

(** * Properties *)

(** ** Masks and selections *)

Lemma select_map {A B} (g : A -> B) (m : list bool) (xs : list A) :
  select m (map g xs) = map g (select m xs).
Proof.
  revert xs; induction m as [|b m IH]; intros [|x xs]; simpl; try done.
  destruct b; simpl; by rewrite IH.
Qed.

Lemma select_self {A} (P : A -> bool) (xs : list A) :
  select (map P xs) xs = List.filter P xs.
Proof.
  induction xs as [|x xs IH]; simpl; [done|].
  destruct (P x); by rewrite IH.
Qed.

Lemma select_length_le {A} (m : list bool) (xs : list A) :
  (length (select m xs) <= count_true m)%nat.
Proof.
  unfold count_true.
  revert xs; induction m as [|b m IH]; intros [|x xs]; simpl; try lia.
  destruct b; simpl; specialize (IH xs); lia.
Qed.

Lemma select_length_eq {A B} (m : list bool) (xs : list A) (ys : list B) :
  length xs = length ys -> length (select m xs) = length (select m ys).
Proof.
  revert xs ys; induction m as [|b m IH]; intros [|x xs] [|y ys] H; simpl in *;
    try done.
  destruct b; simpl; auto.
Qed.

Lemma select_repeat {A B} (x : A) (m : list bool) (ys : list B) :
  select m (repeat x (length ys)) = repeat x (length (select m ys)).
Proof.
  revert ys; induction m as [|b m IH]; intros [|y ys]; simpl; try done.
  destruct b; simpl; by rewrite IH.
Qed.

Lemma select_all {A} (n : nat) (xs : list A) :
  (length xs <= n)%nat -> select (repeat true n) xs = xs.
Proof.
  revert xs; induction n as [|n IH]; intros [|x xs] H; simpl in *; try done; try lia.
  rewrite IH; [done | lia].
Qed.

Lemma select_sublist {A} (m : list bool) (xs : list A) : sublist (select m xs) xs.
Proof.
  revert xs; induction m as [|b m IH]; intros [|x xs]; simpl;
    try apply sublist_nil_l.
  destruct b; [apply sublist_skip | apply sublist_cons]; apply IH.
Qed.

Lemma mask_and_length (a b : list bool) :
  length (mask_and a b) = Nat.min (length a) (length b).
Proof.
  revert b; induction a as [|x a IH]; intros [|y b]; simpl; try done.
  by rewrite IH.
Qed.

Lemma select_and_l (a b : list bool) :
  select (mask_and a b) a = repeat true (count_true (mask_and a b)).
Proof.
  revert b; induction a as [|x a IH]; intros [|y b]; try done.
  unfold count_true in *; simpl. destruct x, y; simpl; by rewrite ?IH.
Qed.

Lemma select_and_r (a b : list bool) :
  select (mask_and a b) b = repeat true (count_true (mask_and a b)).
Proof.
  revert b; induction a as [|x a IH]; intros [|y b]; try done.
  unfold count_true in *; simpl. destruct x, y; simpl; by rewrite ?IH.
Qed.

Lemma mask_and_true (n : nat) : mask_and (repeat true n) (repeat true n) = repeat true n.
Proof. induction n; simpl; congruence. Qed.

Lemma col_select_length_le (m : list bool) (c : column) :
  (col_length (col_select m c) <= count_true m)%nat.
Proof. destruct c; simpl; apply select_length_le. Qed.

Lemma col_select_all (n : nat) (c : column) :
  (col_length c <= n)%nat -> col_select (repeat true n) c = c.
Proof. destruct c; simpl; intros H; by rewrite select_all. Qed.

Lemma bool_index_again (f : frame) (m : list bool) :
  bool_index (bool_index f m) (repeat true (count_true m)) = bool_index f m.
Proof.
  unfold bool_index; simpl. f_equal.
  - apply select_all, select_length_le.
  - rewrite map_map. apply map_ext; intros [l c]; simpl.
    by rewrite col_select_all by apply col_select_length_le.
Qed.

(** ** Column lookup *)

Lemma getitem_bool_index (f : frame) (m : list bool) (label : string) :
  getitem (bool_index f m) label = (c ← getitem f label; Ok (col_select m c)).
Proof.
  unfold getitem, bool_index; simpl.
  set (g := fun p : string * column => (fst p, col_select m (snd p))).
  assert (E : forall cs, List.filter (fun p => String.eqb (fst p) label) (map g cs)
                 = map g (List.filter (fun p => String.eqb (fst p) label) cs)).
  { induction cs as [|[l c] cs IH]; simpl; [done|].
    destruct (String.eqb l label); simpl; by rewrite IH. }
  rewrite E.
  destruct (List.filter _ (columns f)) as [|[l c] [|q rest]]; done.
Qed.

Lemma eq_label_select (m : list bool) (c : column) (region : option string) :
  eq_label (col_select m c) region = select m (eq_label c region).
Proof.
  destruct c, region; simpl; rewrite ?select_map; try done;
    by rewrite select_repeat.
Qed.

Lemma between_select (m : list bool) (c : column) (lo hi : Z) :
  between (col_select m c) lo hi = (b ← between c lo hi; Ok (select m b)).
Proof. destruct c; simpl; try done. by rewrite select_map. Qed.

Lemma eq_label_length (c : column) (region : option string) :
  length (eq_label c region) = col_length c.
Proof.
  destruct c, region; simpl; rewrite ?length_map, ?repeat_length; done.
Qed.

Lemma between_length (c : column) (lo hi : Z) (b : list bool) :
  between c lo hi = Ok b -> length b = col_length c.
Proof. destruct c; simpl; try done. intros [= <-]. by rewrite length_map. Qed.

(** ** Rows of a selection *)

Lemma cells_length (c : column) : length (cells c) = col_length c.
Proof. destruct c; simpl; by rewrite length_map. Qed.

Lemma cells_select (m : list bool) (c : column) :
  cells (col_select m c) = select m (cells c).
Proof. destruct c; simpl; by rewrite select_map. Qed.

Lemma height_tails (n : nat) cols : height (S n) cols -> height n (tails cols).
Proof.
  unfold height, tails; intros H. apply Forall_map.
  eapply Forall_impl; [exact H|]. intros [l [|x xs]]; simpl; [done | lia].
Qed.

Lemma heads_selected_true (n : nat) (m : list bool) cols :
  height (S n) cols -> heads (selected (true :: m) cols) = heads cols.
Proof.
  induction 1 as [|[l [|x xs]] cols Hp _ IH]; simpl in *; try done.
  fold (heads cols). fold (selected (true :: m) cols).
  fold (heads (selected (true :: m) cols)). by rewrite IH.
Qed.

Lemma tails_selected (n : nat) (b : bool) (m : list bool) cols :
  height (S n) cols ->
  (if b then tails (selected (b :: m) cols) else selected (b :: m) cols)
  = selected m (tails cols).
Proof.
  induction 1 as [|[l [|x xs]] cols Hp _ IH]; simpl in *; try done.
  - by destruct b.
  - destruct b; simpl in *; f_equal; apply IH.
Qed.

Lemma transpose_select (idx : list Z) (m : list bool) cols :
  length m = length idx -> height (length idx) cols ->
  transpose (select m idx) (selected m cols) = select m (transpose idx cols).
Proof.
  revert m cols; induction idx as [|l idx IH]; intros [|b m] cols Hm Hc;
    simpl in *; try done.
  pose proof (tails_selected _ b m cols Hc) as Ht.
  destruct b; simpl.
  - fold (heads (selected (true :: m) cols)) (tails (selected (true :: m) cols)).
    rewrite (heads_selected_true _ m cols Hc), Ht.
    fold (heads cols) (tails cols).
    rewrite IH; [done | lia | by apply height_tails].
  - fold (tails cols). rewrite Ht.
    apply IH; [lia | by apply height_tails].
Qed.

Lemma well_formed_height (f : frame) :
  well_formed f = true -> height (length (index f)) (cell_columns f).
Proof.
  unfold well_formed, height, cell_columns. rewrite forallb_forall.
  intros H. apply Forall_map, Forall_forall. intros p Hp; simpl.
  rewrite cells_length. apply Nat.eqb_eq, H. by apply list_elem_of_In.
Qed.

Lemma rows_bool_index (f : frame) (m : list bool) :
  well_formed f = true -> length m = length (index f) ->
  rows (bool_index f m) = select m (rows f).
Proof.
  intros Hwf Hm. unfold rows, bool_index; simpl. fold (cell_columns f).
  rewrite <- (transpose_select _ _ _ Hm (well_formed_height f Hwf)).
  f_equal. unfold selected, cell_columns. rewrite !map_map.
  apply map_ext; intros [l c]; simpl. by rewrite cells_select.
Qed.

(** ** The cells of a column, read off the rows *)

Lemma find_heads (n : nat) (P : string -> bool) cols (l : string) (xs : list cell) :
  height (S n) cols ->
  List.find (fun p => P (fst p)) cols = Some (l, xs) ->
  exists x xs', xs = x :: xs'
    /\ List.find (fun p => P (fst p)) (heads cols) = Some (l, x)
    /\ List.find (fun p => P (fst p)) (tails cols) = Some (l, xs').
Proof.
  induction 1 as [|[l0 [|x0 xs0]] cols Hp _ IH]; simpl in *; try done.
  fold (heads cols) (tails cols).
  destruct (P l0) eqn:E.
  - intros [= <- <-]. by exists x0, xs0.
  - intros Hf. destruct (IH Hf) as (x & xs' & -> & H1 & H2).
    by exists x, xs'.
Qed.

Lemma field_transpose (label : string) (idx : list Z) cols (l : string)
  (xs : list cell) :
  height (length idx) cols ->
  List.find (fun p => String.eqb (fst p) label) cols = Some (l, xs) ->
  map (field label) (transpose idx cols) = map Some xs.
Proof.
  revert cols xs; induction idx as [|i idx IH]; intros cols xs Hc Hf; simpl in *.
  - apply find_some in Hf as [Hin _].
    unfold height in Hc. rewrite Forall_forall in Hc.
    apply list_elem_of_In, Hc in Hin. by destruct xs.
  - destruct (find_heads _ (fun s => String.eqb s label) cols l xs Hc Hf)
      as (x & xs' & -> & H1 & H2).
    simpl. f_equal.
    + unfold field; simpl. fold (heads cols). by rewrite H1.
    + fold (tails cols). eapply IH; [by apply height_tails | exact H2].
Qed.

Lemma getitem_find (f : frame) (label : string) (c : column) :
  getitem f label = Ok c ->
  exists l, List.find (fun p => String.eqb (fst p) label) (columns f) = Some (l, c).
Proof.
  unfold getitem.
  induction (columns f) as [|[l0 c0] cs IH]; simpl; [done|].
  destruct (String.eqb l0 label) eqn:E.
  - destruct (List.filter _ cs); [|done]. intros [= <-]. by exists l0.
  - apply IH.
Qed.

Lemma field_column (f : frame) (label : string) (c : column) :
  well_formed f = true -> getitem f label = Ok c ->
  map (field label) (rows f) = map Some (cells c).
Proof.
  intros Hwf Hg. destruct (getitem_find f label c Hg) as [l Hf].
  unfold rows. fold (cell_columns f).
  apply (field_transpose label _ _ l); [by apply well_formed_height|].
  unfold cell_columns. clear Hg Hwf.
  induction (columns f) as [|[l0 c0] cs IH]; simpl in *; [done|].
  destruct (String.eqb l0 label); [by injection Hf as <- <- | by apply IH].
Qed.

Lemma rows_length (f : frame) : length (rows f) = length (index f).
Proof.
  unfold rows. generalize (map (fun p => (fst p, cells (snd p))) (columns f)).
  induction (index f) as [|i idx IH]; intros cols; simpl; [done|].
  by rewrite IH.
Qed.

(** ** The filter *)

Lemma matches_mask (region : option string) (annee : Z * Z) (rs : list row)
  (cs1 cs2 : list cell) :
  map (field REGION) rs = map Some cs1 ->
  map (field ANNEE) rs = map Some cs2 ->
  map (row_matches region annee) rs
  = mask_and (map (region_cell region) cs1) (map (year_cell annee) cs2).
Proof.
  revert cs1 cs2; induction rs as [|r rs IH]; intros [|c1 cs1] [|c2 cs2] H1 H2;
    simpl in *; try done.
  injection H1 as E1 H1. injection H2 as E2 H2.
  rewrite (IH _ _ H1 H2). f_equal.
  unfold row_matches. rewrite E1, E2.
  destruct c1 as [| [s|] | | |], c2 as [| | | [y|] |]; simpl;
    rewrite ?andb_false_r, ?andb_assoc; done.
Qed.

Lemma eq_label_cells (c : column) (region : option string) :
  eq_label c region = map (region_cell region) (cells c).
Proof.
  assert (R : forall (A : Type) (xs : list A) (g : A -> cell),
             (forall x, region_cell region (g x) = false) ->
             repeat false (length xs) = map (region_cell region) (map g xs)).
  { intros A xs g Hg. induction xs; simpl; [done|]. by rewrite Hg, IHxs. }
  destruct c, region as [s|]; simpl; try (by apply R).
  - rewrite map_map. apply map_ext. intros [t|]; simpl; [|done].
    destruct (String.eqb_spec t s) as [->|Hne].
    + by rewrite bool_decide_eq_true_2.
    + by rewrite bool_decide_eq_false_2 by congruence.
  - apply R. by intros [t|].
Qed.

Lemma between_cells (ys : list (option Z)) (annee : Z * Z) :
  between (IntNA ys) annee.1 annee.2 = Ok (map (year_cell annee) (cells (IntNA ys))).
Proof. simpl. by rewrite map_map. Qed.

Lemma getitem_length (f : frame) (label : string) (c : column) :
  well_formed f = true -> getitem f label = Ok c -> col_length c = length (index f).
Proof.
  intros Hwf Hg. destruct (getitem_find f label c Hg) as [l Hf].
  apply find_some in Hf as [Hin _].
  unfold well_formed in Hwf. rewrite forallb_forall in Hwf.
  by apply Nat.eqb_eq, (Hwf _ Hin).
Qed.

Lemma filter_mask_length (f : frame) (rc yc : column) (region : option string)
  (lo hi : Z) (b : list bool) :
  well_formed f = true ->
  getitem f REGION = Ok rc -> getitem f ANNEE = Ok yc -> between yc lo hi = Ok b ->
  length (mask_and (eq_label rc region) b) = length (index f).
Proof.
  intros Hwf Hr Hy Hb.
  rewrite mask_and_length, eq_label_length, (between_length _ _ _ _ Hb).
  rewrite (getitem_length _ _ _ Hwf Hr), (getitem_length _ _ _ Hwf Hy). lia.
Qed.

(** C2. On a data set that has its region column and its year column, the
    filter returns a frame whose rows are exactly the rows of the data set
    whose region is the selected one and whose year lies in the closed
    interval, in the order of the data set. *)
Theorem filter_rows_exact (f : frame) (region : option string) (annee : Z * Z)
  (rc : column) (ys : list (option Z)) :
  well_formed f = true ->
  getitem f REGION = Ok rc ->
  getitem f ANNEE = Ok (IntNA ys) ->
  exists g, filter_rows f region annee = Ok g
    /\ rows g = List.filter (row_matches region annee) (rows f)
    /\ sublist (rows g) (rows f).
Proof.
  intros Hwf Hr Hy. unfold filter_rows. rewrite Hr, Hy.
  pose proof (between_cells ys annee) as Hb.
  cbv beta iota delta [mbind outcome_bind]. rewrite Hb.
  eexists; split; [reflexivity|].
  pose proof (filter_mask_length f rc _ region _ _ _ Hwf Hr Hy Hb) as Hlen.
  rewrite (rows_bool_index _ _ Hwf Hlen). split; [|apply select_sublist].
  rewrite <- select_self. f_equal.
  rewrite eq_label_cells. symmetry.
  apply matches_mask; by apply field_column.
Qed.

(** C9. The rows of the filtered frame are rows of the data set, in its
    order, and filtering the filtered frame again with the same region and
    years returns it unchanged. *)
Theorem filter_rows_idempotent (f g : frame) (region : option string) (annee : Z * Z) :
  well_formed f = true ->
  filter_rows f region annee = Ok g ->
  sublist (rows g) (rows f) /\ filter_rows g region annee = Ok g.
Proof.
  intros Hwf. unfold filter_rows.
  destruct (getitem f REGION) as [rc|] eqn:Hr; [simpl|done].
  destruct (getitem f ANNEE) as [yc|] eqn:Hy; [simpl|done].
  destruct (between yc annee.1 annee.2) as [b|] eqn:Hb; [simpl|done].
  intros [= <-]. split.
  - rewrite rows_bool_index; [apply select_sublist | done |].
    by eapply filter_mask_length.
  - rewrite !getitem_bool_index, Hr, Hy; simpl.
    rewrite between_select, Hb; simpl.
    rewrite eq_label_select, select_and_l, select_and_r, mask_and_true.
    by rewrite bool_index_again.
Qed.

Lemma select_none {A} (m : list bool) (xs : list A) :
  Forall (fun b => b = false) m -> select m xs = [].
Proof.
  intros H; revert xs; induction H as [|b m -> _ IH]; intros [|x xs]; simpl; auto.
Qed.

Lemma mask_and_none_l (a b : list bool) :
  Forall (fun x => x = false) a -> Forall (fun x => x = false) (mask_and a b).
Proof.
  intros H; revert b; induction H as [|x a -> _ IH]; intros [|y b]; simpl;
    constructor; auto.
Qed.

Lemma mask_and_none_r (a b : list bool) :
  Forall (fun x => x = false) b -> Forall (fun x => x = false) (mask_and a b).
Proof.
  intros H; revert a; induction H as [|y b -> _ IH]; intros [|x a]; simpl;
    constructor; auto using andb_false_r.
Qed.

(** C7, as the script has it.  The filter validates nothing: with a region
    that no row carries, or with a year interval whose lower end exceeds its
    upper end, it returns the frame with the same columns and no row; the
    select box and the slider are what keeps such values away. *)
Theorem filter_rows_unvalidated (f : frame) (region : option string) (annee : Z * Z)
  (rs : list (option string)) (ys : list (option Z)) :
  getitem f REGION = Ok (Object rs) ->
  getitem f ANNEE = Ok (IntNA ys) ->
  (forall s, region = Some s -> Some s ∉ rs) \/ annee.2 < annee.1 ->
  exists g, filter_rows f region annee = Ok g
    /\ names g = names f
    /\ index g = []
    /\ Forall (fun p => col_length (snd p) = 0%nat) (columns g).
Proof.
  intros Hr Hy Hbad. unfold filter_rows. rewrite Hr, Hy; simpl.
  eexists; split; [reflexivity|].
  set (m := mask_and _ _).
  assert (Hm : Forall (fun b => b = false) m).
  { subst m. destruct Hbad as [Hreg|Hint].
    - apply mask_and_none_l. destruct region as [s|]; simpl.
      + apply Forall_map, Forall_forall. intros [t|] Ht; simpl; [|done].
        destruct (String.eqb_spec t s) as [->|]; [|done].
        by destruct (Hreg s eq_refl).
      + apply Forall_forall. intros x Hx. apply list_elem_of_In in Hx.
        by apply repeat_spec in Hx.
    - apply mask_and_none_r, Forall_map, Forall_forall. intros [y|] _; simpl; [|done].
      apply andb_false_iff. rewrite !Z.leb_gt. lia. }
  unfold bool_index, names; simpl. repeat split.
  - rewrite map_map. by apply map_ext.
  - by apply select_none.
  - apply Forall_map, Forall_forall. intros [l c] _; simpl.
    destruct c; simpl; by rewrite select_none.
Qed.

(** ** Running the interpreter *)

Lemma run_bind {A B} (m : M A) (k : A -> M B) (w w' : world) (a : A) :
  m w = (Ok a, w') -> (m ≫= k) w = k a w'.
Proof. intros H. unfold mbind, M_bind. by rewrite H. Qed.

Lemma run_bind_raise {A B} (m : M A) (k : A -> M B) (w w' : world) (e : exn) :
  m w = (Raise e, w') -> (m ≫= k) w = (Raise e, w').
Proof. intros H. unfold mbind, M_bind. by rewrite H. Qed.

Lemma run_lift_ok {A B} (a : A) (k : A -> M B) (w : world) :
  (lift (Ok a) ≫= k) w = k a w.
Proof. reflexivity. Qed.

Lemma run_lift_raise {A B} (e : exn) (k : A -> M B) (w : world) :
  (lift (Raise e) ≫= k) w = (Raise e, w).
Proof. reflexivity. Qed.

Lemma run_emit {B} (name : string) (data : list payload) (k : unit -> M B)
  (w : world) :
  (emit name data ≫= k) w = k tt (World (heap w) (display w ++ [Event name data])).
Proof. reflexivity. Qed.

Lemma run_new {B} (f : frame) (k : loc -> M B) (w : world) :
  (new f ≫= k) w = k (length (heap w)) (World (heap w ++ [f]) (display w)).
Proof. reflexivity. Qed.

Lemma run_load (l : loc) (f : frame) (w : world) :
  heap w !! l = Some f -> load l w = (Ok f, w).
Proof. intros H. unfold load. by rewrite H. Qed.

Lemma run_assign (l : loc) (label : string) (c : column) (f f' : frame) (w : world) :
  heap w !! l = Some f -> with_column f label c = Ok f' ->
  assign l label c w = (Ok tt, World (<[l := f']> (heap w)) (display w)).
Proof.
  intros Hl Hc. unfold assign.
  rewrite (run_bind _ _ _ _ _ (run_load _ _ _ Hl)).
  unfold lift, mbind, M_bind. by rewrite Hc.
Qed.

Lemma run_rename (l : loc) (labels : list string) (f f' : frame) (w : world) :
  heap w !! l = Some f -> with_names f labels = Ok f' ->
  rename l labels w = (Ok tt, World (<[l := f']> (heap w)) (display w)).
Proof.
  intros Hl Hc. unfold rename.
  rewrite (run_bind _ _ _ _ _ (run_load _ _ _ Hl)).
  unfold lift, mbind, M_bind. by rewrite Hc.
Qed.

Lemma heap_updated (l : loc) (f f' : frame) (h : list frame) :
  h !! l = Some f -> <[l := f']> h !! l = Some f'.
Proof. intros H. apply list_lookup_insert_eq. by eapply lookup_lt_Some. Qed.

Ltac step_load H := rewrite (run_bind _ _ _ _ _ (run_load _ _ _ H)); cbv beta.
Ltac step_lift H := rewrite H, run_lift_ok; cbv beta.

(** ** Columns after an assignment *)

Lemma filter_absent (label : string) (cs : list (string * column)) :
  has_label label cs = false ->
  List.filter (fun p => String.eqb (fst p) label) cs = [].
Proof.
  unfold has_label. induction cs as [|[l c] cs IH]; simpl; [done|].
  destruct (String.eqb l label); simpl; [done | exact IH].
Qed.

Lemma has_label_distinct (label : string) (cs : list (string * column)) :
  existsb (String.eqb label) (map fst cs) = has_label label cs.
Proof.
  unfold has_label. induction cs as [|[l c] cs IH]; simpl; [done|].
  by rewrite IH, String.eqb_sym.
Qed.

Lemma filter_replace_col (label : string) (c : column) (cs : list (string * column)) :
  distinct (map fst cs) = true ->
  List.filter (fun p => String.eqb (fst p) label) (replace_col label c cs)
  = [(label, c)].
Proof.
  unfold replace_col. destruct (has_label label cs) eqn:E.
  - induction cs as [|[l0 c0] cs IH]; simpl in *; [done|].
    intros [Hn Hd]%andb_true_iff. apply negb_true_iff in Hn.
    rewrite has_label_distinct in Hn.
    destruct (String.eqb_spec l0 label) as [->|Hne]; simpl.
    + rewrite String.eqb_refl. f_equal.
      clear -Hn. unfold has_label in Hn.
      induction cs as [|[l c1] cs IH]; simpl in *; [done|].
      apply orb_false_iff in Hn as [Hl Hn]. rewrite Hl; simpl.
      rewrite Hl. by apply IH.
    + apply String.eqb_neq in Hne. rewrite Hne. by apply IH.
  - intros _. rewrite List.filter_app, (filter_absent _ _ E); simpl.
    by rewrite String.eqb_refl.
Qed.

Lemma getitem_with_column (f f' : frame) (label : string) (c : column) :
  distinct (names f) = true -> with_column f label c = Ok f' ->
  getitem f' label = Ok c /\ index f' = index f.
Proof.
  unfold with_column. intros Hd.
  destruct (Nat.eqb _ _); [|done]. intros [= <-]. split; [|done].
  unfold getitem; simpl. by rewrite filter_replace_col.
Qed.

Lemma filter_replace_other (label other : string) (c : column)
  (cs : list (string * column)) :
  other <> label ->
  List.filter (fun p => String.eqb (fst p) other) (replace_col label c cs)
  = List.filter (fun p => String.eqb (fst p) other) cs.
Proof.
  intros Hne. unfold replace_col. destruct (has_label label cs).
  - induction cs as [|[l0 c0] cs IH]; simpl; [done|].
    destruct (String.eqb_spec l0 label) as [->|]; simpl.
    + apply String.eqb_neq in Hne. rewrite String.eqb_sym in Hne. by rewrite Hne.
    + destruct (String.eqb l0 other); by rewrite IH.
  - rewrite List.filter_app; simpl.
    apply String.eqb_neq in Hne. rewrite String.eqb_sym in Hne. rewrite Hne.
    by rewrite app_nil_r.
Qed.

Lemma getitem_with_column_other (f f' : frame) (label other : string) (c : column) :
  other <> label -> with_column f label c = Ok f' ->
  getitem f' other = getitem f other.
Proof.
  unfold with_column. intros Hne.
  destruct (Nat.eqb _ _); [|done]. intros [= <-].
  unfold getitem; simpl. by rewrite filter_replace_other.
Qed.

Lemma names_replace_col (label : string) (c : column) (cs : list (string * column)) :
  map fst (replace_col label c cs)
  = if has_label label cs then map fst cs else map fst cs ++ [label].
Proof.
  unfold replace_col. destruct (has_label label cs).
  - rewrite map_map. apply map_ext. intros [l c0]; simpl.
    by destruct (String.eqb l label).
  - by rewrite map_app.
Qed.

Lemma distinct_snoc (label : string) (ls : list string) :
  distinct ls = true -> existsb (String.eqb label) ls = false ->
  distinct (ls ++ [label]) = true.
Proof.
  induction ls as [|l ls IH]; simpl; [done|].
  intros [Hn Hd]%andb_true_iff [Hl He]%orb_false_iff.
  rewrite IH by done. rewrite andb_true_r.
  apply negb_true_iff in Hn. apply negb_true_iff.
  rewrite existsb_app, Hn; simpl. by rewrite String.eqb_sym, Hl.
Qed.

Lemma distinct_with_column (f f' : frame) (label : string) (c : column) :
  distinct (names f) = true -> with_column f label c = Ok f' ->
  distinct (names f') = true.
Proof.
  unfold with_column, names. intros Hd.
  destruct (Nat.eqb _ _); [|done]. intros [= <-]; simpl.
  rewrite names_replace_col. destruct (has_label label (columns f)) eqn:E; [done|].
  apply distinct_snoc; [done|]. by rewrite has_label_distinct.
Qed.

Lemma well_formed_with_column (f f' : frame) (label : string) (c : column) :
  well_formed f = true -> with_column f label c = Ok f' -> well_formed f' = true.
Proof.
  unfold with_column, well_formed.
  destruct (Nat.eqb _ _) eqn:E; [|done]. intros Hwf [= <-]; simpl.
  rewrite forallb_forall in *. intros [l c0] Hin.
  unfold replace_col in Hin. destruct (has_label label (columns f)).
  - apply in_map_iff in Hin as ([l1 c1] & Heq & Hin).
    destruct (String.eqb _ _); injection Heq as <- <-; simpl; [done|].
    by apply (Hwf _ Hin).
  - apply in_app_iff in Hin as [Hin|[[= <- <-]|[]]]; [by apply (Hwf _ Hin) | done].
Qed.

(** ** The delta column *)

Lemma zip_with_float_length (op : float -> float -> float) (a b : list float) :
  length (zip_with_float op a b) = Nat.min (length a) (length b).
Proof.
  revert b; induction a as [|x a IH]; intros [|y b]; simpl; try done.
  by rewrite IH.
Qed.

Lemma zip_with_float_lookup (op : float -> float -> float) (a b : list float)
  (i : nat) (x y : float) :
  a !! i = Some x -> b !! i = Some y -> zip_with_float op a b !! i = Some (op x y).
Proof.
  revert b i; induction a as [|x0 a IH]; intros [|y0 b] [|i]; simpl; try done.
  - by intros [= ->] [= ->].
  - apply IH.
Qed.

Lemma zip_with_float_map {A} (op : float -> float -> float) (g h : A -> float)
  (l : list A) :
  zip_with_float op (map g l) (map h l) = map (fun a => op (g a) (h a)) l.
Proof. induction l as [|a l IH]; simpl; [done | by rewrite IH]. Qed.

Section Delta.
Context {lib : Library}.

Lemma delta_of_floats (f : frame) (ps cs : list float) :
  getitem f PROD = Ok (Float64 ps) -> getitem f CONSO = Ok (Float64 cs) ->
  delta_of f = Ok (Float64 (zip_with_float PrimFloat.sub ps cs)).
Proof. intros Hp Hc. unfold delta_of. by rewrite Hp, Hc. Qed.

Lemma national_groups (f : frame) (ts : list (option Timestamp))
  (ps cs : list float) :
  getitem f DATE = Ok (Datetime ts) ->
  getitem f PROD = Ok (Float64 ps) -> getitem f CONSO = Ok (Float64 cs) ->
  let G := grouping ts_eqb ts_leb ts in
  national f
  = Ok (mkFrame (range_index (length G))
          [ (DATE, Datetime (map (fun g => Some (fst g)) G));
            (CONSO, Float64 (map (fun g => group_sum (select (snd g) cs)) G));
            (PROD, Float64 (map (fun g => group_sum (select (snd g) ps)) G)) ]).
Proof.
  intros Hd Hp Hc G. unfold national, groupby_reset.
  rewrite Hd; simpl. rewrite Hc, Hp; simpl.
  unfold reduce_groups. fold G. by rewrite !map_map, length_map.
Qed.

(** C1. In a frame that is given the delta column (line 90), every row's
    delta is its Production_totale minus its Consommation (MW), as
    computed by the float subtraction; and in the national aggregation
    (lines 118-119) the delta of every timestamp is the summed production
    of its rows minus their summed consumption. *)
Theorem delta_is_production_minus_consumption (w : world) (l : loc) (f : frame)
  (ts : list (option Timestamp)) (ps cs : list float) :
  heap w !! l = Some f ->
  well_formed f = true ->
  distinct (names f) = true ->
  getitem f DATE = Ok (Datetime ts) ->
  getitem f PROD = Ok (Float64 ps) ->
  getitem f CONSO = Ok (Float64 cs) ->
  (exists f' ds,
      add_delta l w = (Ok tt, World (<[l := f']> (heap w)) (display w))
      /\ getitem f' "delta" = Ok (Float64 ds)
      /\ index f' = index f
      /\ length ds = length (index f)
      /\ forall i p c, ps !! i = Some p -> cs !! i = Some c ->
           ds !! i = Some (p - c)%float)
  /\ (let G := grouping ts_eqb ts_leb ts in
      exists n ds,
        national f = Ok n
        /\ delta_of n = Ok (Float64 ds)
        /\ getitem n DATE = Ok (Datetime (map (fun g => Some (fst g)) G))
        /\ ds = map (fun g => (group_sum (select (snd g) ps)
                               - group_sum (select (snd g) cs))%float) G).
Proof.
  intros Hl Hwf Hd Ht Hp Hc. split.
  - set (ds := zip_with_float PrimFloat.sub ps cs).
    assert (Hlen : length ds = length (index f)).
    { subst ds. rewrite zip_with_float_length.
      pose proof (getitem_length _ _ _ Hwf Hp) as H1.
      pose proof (getitem_length _ _ _ Hwf Hc) as H2. simpl in *. lia. }
    destruct (with_column f "delta" (Float64 ds)) as [f'|] eqn:Hw.
    2:{ unfold with_column in Hw; simpl in Hw.
        rewrite Hlen, Nat.eqb_refl in Hw. done. }
    exists f', ds.
    destruct (getitem_with_column _ _ _ _ Hd Hw) as [Hg Hi].
    repeat split; try done.
    + unfold add_delta.
      rewrite (run_bind _ _ _ _ _ (run_load _ _ _ Hl)).
      unfold lift at 1. unfold mbind at 1, M_bind at 1.
      rewrite (delta_of_floats _ _ _ Hp Hc).
      by apply run_assign with (f := f).
    + intros i p c. apply zip_with_float_lookup.
  - intros G. eexists _, _. split; [by apply national_groups|].
    repeat split.
    unfold delta_of, getitem; simpl.
    by rewrite zip_with_float_map.
Qed.

End Delta.

(** ** Schema check and temporal enrichment *)

Lemma zip_relabel (g : string -> string) (cs : list (string * column)) :
  zip (map g (map fst cs)) (map snd cs) = relabel g cs.
Proof. induction cs as [|[l c] cs IH]; simpl; [done | by rewrite IH]. Qed.

Lemma with_names_relabel (g : string -> string) (f : frame) :
  with_names f (map g (names f)) = Ok (mkFrame (index f) (relabel g (columns f))).
Proof.
  unfold with_names, names. rewrite !length_map, Nat.eqb_refl.
  by rewrite zip_relabel.
Qed.

Lemma relabel_absent (g : string -> string) (label : string)
  (cs : list (string * column)) :
  existsb (String.eqb label) (map g (map fst cs)) = false ->
  List.filter (fun p => String.eqb (fst p) label) (relabel g cs) = [].
Proof.
  induction cs as [|[l c] cs IH]; simpl; [done|].
  intros [Hl He]%orb_false_iff. rewrite String.eqb_sym, Hl. by apply IH.
Qed.

Lemma relabel_present (g : string -> string) (label : string)
  (cs : list (string * column)) :
  List.filter (fun p => String.eqb (fst p) label) cs <> [] ->
  existsb (String.eqb (g label)) (map g (map fst cs)) = true.
Proof.
  induction cs as [|[l c] cs IH]; simpl; [done|].
  destruct (String.eqb_spec l label) as [->|Hne].
  - intros _. by rewrite String.eqb_refl.
  - intros H. rewrite (IH H). apply orb_true_r.
Qed.

Lemma getitem_relabel (g : string -> string) (f : frame) (label : string)
  (c : column) :
  g label = label ->
  distinct (map g (names f)) = true ->
  getitem f label = Ok c ->
  getitem (mkFrame (index f) (relabel g (columns f))) label = Ok c.
Proof.
  intros Hg. unfold getitem, names; simpl.
  induction (columns f) as [|[l0 c0] cs IH]; simpl; [done|].
  intros [Hn Hd]%andb_true_iff. apply negb_true_iff in Hn.
  destruct (String.eqb_spec l0 label) as [->|Hne]; simpl.
  - rewrite Hg, String.eqb_refl. rewrite Hg in Hn.
    rewrite (relabel_absent _ _ _ Hn).
    destruct (List.filter _ cs); [done|]. by destruct p.
  - destruct (String.eqb_spec (g l0) label) as [E|_]; [|by apply IH].
    intros Hc. exfalso.
    assert (Hne' : List.filter (fun p => String.eqb (fst p) label) cs <> []).
    { intros E'. by rewrite E' in Hc. }
    apply (relabel_present g) in Hne'. rewrite Hg, <- E in Hne'. congruence.
Qed.


Lemma names_relabel (g : string -> string) (f : frame) :
  names (mkFrame (index f) (relabel g (columns f))) = map g (names f).
Proof. unfold names, relabel; simpl. by rewrite !map_map. Qed.

Lemma with_column_ok (f : frame) (label : string) (c : column) :
  col_length c = length (index f) ->
  exists f', with_column f label c = Ok f'.
Proof. intros H. unfold with_column. rewrite H, Nat.eqb_refl. eauto. Qed.

Section Enrichment.
Context {lib : Library}.

(** The check passes or the script stops after the diagnostic, with the
    frame as it was read. *)
Lemma validate_outcome (w : world) (df : loc) (f : frame) :
  heap w !! df = Some f ->
  validate df w =
    (if has_date f then Ok tt else Raise StopException,
     World (heap w)
       (display w
        ++ [Event "write" [Text "Colonnes disponibles dans le fichier :"];
            Event "write" [Labels (names f)]]
        ++ if has_date f then []
           else [Event "error"
                   [Text "La colonne 'Date - Heure' est introuvable dans le fichier."]])).
Proof.
  intros Hl. unfold validate.
  rewrite (run_bind _ _ _ _ _ (run_load _ _ _ Hl)).
  unfold mbind, M_bind, emit, st_stop, lift, mret, M_ret; simpl.
  destruct (has_date f); simpl; by rewrite <- ?app_assoc.
Qed.

(** C3, the script at a file whose timestamp label has a leading blank:
    the check reads the labels as they are in the file, before line 28
    trims them, so the script stops although the trimmed labels contain
    "Date - Heure". *)
Theorem check_precedes_strip (p : page) (region : option string) (annee : Z * Z) :
  In DATE (map Strip.strip (names Sample.padded))
  /\ main Sample.padded p region annee start
     = (Raise StopException,
        World [Sample.padded]
          [Event "write" [Text "Colonnes disponibles dans le fichier :"];
           Event "write" [Labels (names Sample.padded)];
           Event "error"
             [Text "La colonne 'Date - Heure' est introuvable dans le fichier."]]).
Proof. split; [by left | reflexivity]. Qed.

Lemma to_datetime_col_text (xs : list (option string))
  (read : string -> option Timestamp) :
  to_datetime xs = Ok read ->
  to_datetime_col (Object xs) = Ok (Datetime (map (fun o => o ≫= read) xs)).
Proof. intros H. unfold to_datetime_col. by rewrite H. Qed.


End Enrichment.

(** ** Order and division of binary64 values *)

Module F64Facts.

Lemma ltb_cmp (x y : float) :
  (x <? y)%float = match F64.cmp x y with Some Lt => true | _ => false end.
Proof. by rewrite FloatAxioms.ltb_spec. Qed.

Lemma leb_cmp (x y : float) :
  (x <=? y)%float = match F64.cmp x y with Some (Lt | Eq) => true | _ => false end.
Proof. by rewrite FloatAxioms.leb_spec. Qed.

Lemma eqb_cmp (x y : float) :
  (x =? y)%float = match F64.cmp x y with Some Eq => true | _ => false end.
Proof. by rewrite FloatAxioms.eqb_spec. Qed.

Lemma cmp_defined (x y : float) :
  F64.is_nan x = false -> F64.is_nan y = false -> exists c, F64.cmp x y = Some c.
Proof.
  unfold F64.is_nan, F64.cmp.
  destruct (Prim2SF x) as [[]|[]| |[]], (Prim2SF y) as [[]|[]| |[]];
    simpl; intros; try done; eauto.
Qed.

Lemma cmp_nan_l (x y : float) : F64.is_nan x = true -> F64.cmp x y = None.
Proof. unfold F64.is_nan, F64.cmp. by destruct (Prim2SF x). Qed.

Lemma cmp_nan_r (x y : float) : F64.is_nan y = true -> F64.cmp x y = None.
Proof.
  unfold F64.is_nan, F64.cmp. destruct (Prim2SF y); try done.
  by destruct (Prim2SF x).
Qed.

Ltac order_cases :=
  repeat match goal with
         | |- context [Z.compare ?a ?b] => destruct (Z.compare_spec a b)
         | H : context [Z.compare ?a ?b] |- _ => destruct (Z.compare_spec a b)
         | |- context [Pos.compare ?a ?b] => destruct (Pos.compare_spec a b)
         | H : context [Pos.compare ?a ?b] |- _ => destruct (Pos.compare_spec a b)
         end;
  simpl in *; try done; try lia.

Lemma sf_compare_antisym (a b : spec_float) :
  SFcompare b a = CompOpp <$> SFcompare a b.
Proof.
  destruct a as [[]|[]| |[] m1 e1], b as [[]|[]| |[] m2 e2]; simpl; try done;
    change (Pos.compare_cont Eq) with Pos.compare;
    rewrite (Z.compare_antisym e1 e2), (Pos.compare_antisym m1 m2);
    destruct (e1 ?= e2); simpl; try done;
    by destruct (m1 ?= m2)%positive.
Qed.

Lemma sf_le_trans (a b c : spec_float) :
  F64.below (SFcompare a b) -> F64.below (SFcompare b c) -> F64.below (SFcompare a c).
Proof.
  unfold F64.below.
  destruct a as [[]|[]| |[] m1 e1], b as [[]|[]| |[] m2 e2],
           c as [[]|[]| |[] m3 e3];
    simpl; change (Pos.compare_cont Eq) with Pos.compare;
    intros [H1|H1] [H2|H2]; try done; auto;
    injection H1 as H1; injection H2 as H2; revert H1 H2;
    order_cases; auto.
Qed.

Lemma leb_trans (x y z : float) :
  (x <=? y)%float = true -> (y <=? z)%float = true -> (x <=? z)%float = true.
Proof.
  rewrite !leb_cmp. unfold F64.cmp. intros H1 H2.
  assert (B1 : F64.below (SFcompare (Prim2SF x) (Prim2SF y))).
  { unfold F64.below. destruct (SFcompare _ _) as [[]|]; auto; done. }
  assert (B2 : F64.below (SFcompare (Prim2SF y) (Prim2SF z))).
  { unfold F64.below. destruct (SFcompare (Prim2SF y) _) as [[]|]; auto; done. }
  by destruct (sf_le_trans _ _ _ B1 B2) as [-> | ->].
Qed.

(** Two defined values are comparable. *)
Lemma leb_false_ltb (x y : float) :
  F64.is_nan x = false -> F64.is_nan y = false ->
  (x <=? y)%float = false -> (y <? x)%float = true.
Proof.
  intros Hx Hy. rewrite leb_cmp, ltb_cmp. unfold F64.cmp.
  rewrite (sf_compare_antisym (Prim2SF x) (Prim2SF y)).
  destruct (cmp_defined x y Hx Hy) as [c Hc]. unfold F64.cmp in Hc. rewrite Hc.
  by destruct c.
Qed.

Lemma leb_cases (x y : float) :
  (x <=? y)%float = true -> (x <? y)%float = true \/ (x =? y)%float = true.
Proof.
  rewrite leb_cmp, ltb_cmp, eqb_cmp. destruct (F64.cmp x y) as [[]|]; auto.
Qed.

Lemma ltb_leb (x y : float) : (x <? y)%float = true -> (x <=? y)%float = true.
Proof. rewrite leb_cmp, ltb_cmp. by destruct (F64.cmp x y) as [[]|]. Qed.

Lemma eqb_leb (x y : float) : (x =? y)%float = true -> (x <=? y)%float = true.
Proof. rewrite leb_cmp, eqb_cmp. by destruct (F64.cmp x y) as [[]|]. Qed.

(** Division by a zero: NaN for a zero or NaN dividend, an infinity for
    any other. *)
Lemma div_by_zero (x y : float) :
  F64.is_zero y = true ->
  F64.is_zero (x / y) = false
  /\ (if F64.is_zero x || F64.is_nan x
      then F64.is_nan (x / y) = true
      else F64.is_inf (x / y) = true).
Proof.
  unfold F64.is_zero, F64.is_nan, F64.is_inf. rewrite FloatAxioms.div_spec.
  destruct (Prim2SF y); try done. intros _.
  by destruct (Prim2SF x).
Qed.

End F64Facts.

(** ** The exchange dependency *)

Section Dependance.
Context {lib : Library}.

(** C5, as the script has it.  Over a subset whose summed consumption is
    zero the quotient of line 189 is computed without an exception and is
    not zero: it is NaN when the summed exchanges are zero or NaN, and an
    infinity when they are not. *)
Theorem dependance_zero_consumption (f : frame) (es cs : list float) :
  getitem f ECH = Ok (Float64 es) ->
  getitem f CONSO = Ok (Float64 cs) ->
  F64.is_zero (nansum cs) = true ->
  exists q, dependance f = Ok q
    /\ F64.is_zero q = false
    /\ (if F64.is_zero (nansum es) || F64.is_nan (nansum es)
        then F64.is_nan q = true
        else F64.is_inf q = true).
Proof.
  intros He Hc Hz. unfold dependance. rewrite He, Hc; simpl.
  eexists; split; [reflexivity|].
  by apply F64Facts.div_by_zero.
Qed.

End Dependance.

(** ** The order of the region labels *)

Module Label.

Lemma ascii_compare_refl (a : ascii) : Ascii.compare a a = Eq.
Proof. unfold Ascii.compare. apply N.compare_refl. Qed.

Lemma ascii_compare_lt_trans (a b c : ascii) :
  Ascii.compare a b = Lt -> Ascii.compare b c = Lt -> Ascii.compare a c = Lt.
Proof. unfold Ascii.compare. rewrite !N.compare_lt_iff. lia. Qed.

Lemma compare_refl (s : string) : String.compare s s = Eq.
Proof. induction s as [|a s IH]; simpl; [done|]. by rewrite ascii_compare_refl. Qed.

Lemma compare_lt_trans (a b c : string) :
  String.compare a b = Lt -> String.compare b c = Lt -> String.compare a c = Lt.
Proof.
  revert b c; induction a as [|x a IH]; intros [|y b] [|z c]; simpl; try done.
  destruct (Ascii.compare x y) eqn:E1; try done;
    destruct (Ascii.compare y z) eqn:E2; try done; intros H1 H2.
  - apply Ascii.compare_eq_iff in E1 as ->. apply Ascii.compare_eq_iff in E2 as ->.
    rewrite ascii_compare_refl. by eapply IH.
  - apply Ascii.compare_eq_iff in E1 as ->. by rewrite E2.
  - apply Ascii.compare_eq_iff in E2 as <-. by rewrite E1.
  - by rewrite (ascii_compare_lt_trans _ _ _ E1 E2).
Qed.

Lemma lt_trans (a b c : string) : label_lt a b -> label_lt b c -> label_lt a c.
Proof.
  unfold label_lt, String.ltb. intros H1 H2.
  destruct (String.compare a b) eqn:E1; try done.
  destruct (String.compare b c) eqn:E2; try done.
  by rewrite (compare_lt_trans _ _ _ E1 E2).
Qed.

Lemma lt_irrefl (a : string) : ~ label_lt a a.
Proof. unfold label_lt, String.ltb. by rewrite compare_refl. Qed.

Lemma leb_lt (a b : string) : String.leb a b = true -> a <> b -> label_lt a b.
Proof.
  unfold label_lt, String.leb, String.ltb. destruct (String.compare a b) eqn:E; try done.
  intros _ Hne. by apply String.compare_eq_iff in E.
Qed.

Lemma not_leb_lt (a b : string) : String.leb a b = false -> label_lt b a.
Proof.
  unfold label_lt, String.leb, String.ltb. rewrite (String.compare_antisym a b).
  by destruct (String.compare b a).
Qed.

End Label.

(** ** The groups *)

Lemma insert_key_elem (k x : string) (l : list string) :
  x ∈ insert_key String.eqb String.leb k l <-> x = k \/ x ∈ l.
Proof.
  induction l as [|y l IH]; simpl.
  - rewrite list_elem_of_singleton, elem_of_nil. tauto.
  - destruct (String.eqb_spec k y) as [->|Hne].
    { rewrite elem_of_cons. tauto. }
    destruct (String.leb k y); rewrite !elem_of_cons, ?IH; tauto.
Qed.

Lemma insert_key_sorted (k : string) (l : list string) :
  StronglySorted label_lt l ->
  StronglySorted label_lt (insert_key String.eqb String.leb k l).
Proof.
  induction 1 as [|y l Hs IH Hy]; simpl; [repeat constructor|].
  destruct (String.eqb_spec k y) as [->|Hne]; [by constructor|].
  destruct (String.leb k y) eqn:E.
  - pose proof (Label.leb_lt _ _ E Hne) as Hlt.
    constructor; [by constructor|]. constructor; [done|].
    eapply Forall_impl; [exact Hy|]. intros z Hz. by eapply Label.lt_trans.
  - constructor; [done|]. apply Forall_forall. intros z Hz.
    apply insert_key_elem in Hz as [->|Hz]; [by apply Label.not_leb_lt|].
    by rewrite Forall_forall in Hy; apply Hy.
Qed.

Lemma distinct_sorted_elem (x : string) (ks : list string) :
  x ∈ distinct_sorted String.eqb String.leb ks <-> x ∈ ks.
Proof.
  induction ks as [|k ks IH]; simpl; [done|].
  rewrite insert_key_elem, elem_of_cons, IH. tauto.
Qed.

Lemma distinct_sorted_sorted (ks : list string) :
  StronglySorted label_lt (distinct_sorted String.eqb String.leb ks).
Proof.
  induction ks as [|k ks IH]; simpl; [constructor | by apply insert_key_sorted].
Qed.

Lemma sorted_NoDup (l : list string) : StronglySorted label_lt l -> NoDup l.
Proof.
  induction 1 as [|y l Hs IH Hy]; constructor; [|done].
  intros Hin. rewrite Forall_forall in Hy. by apply (Label.lt_irrefl y), Hy.
Qed.

Lemma distinct_sorted_length (ks : list string) :
  length (distinct_sorted String.eqb String.leb ks)
  = size (list_to_set ks : gset string).
Proof.
  rewrite <- (size_list_to_set (C := gset string)
                (distinct_sorted String.eqb String.leb ks))
    by apply sorted_NoDup, distinct_sorted_sorted.
  f_equal. apply set_eq. intros x.
  by rewrite !elem_of_list_to_set, distinct_sorted_elem.
Qed.

(** ** Ordering by value *)

Lemma insert_value_perm (x : string * float) (l : list (string * float)) :
  insert_value x l ≡ₚ x :: l.
Proof.
  induction l as [|y l IH]; simpl; [done|].
  destruct (_ <=? _)%float; [done|]. rewrite IH. apply perm_swap.
Qed.

Lemma sorted_by_value_perm (l : list (string * float)) :
  foldr insert_value [] l ≡ₚ l.
Proof.
  induction l as [|x l IH]; simpl; [done|]. by rewrite insert_value_perm, IH.
Qed.

Lemma filter_split_perm {A} (P : A -> bool) (l : list A) :
  List.filter P l ++ List.filter (fun x => negb (P x)) l ≡ₚ l.
Proof.
  induction l as [|x l IH]; simpl; [done|].
  destruct (P x); simpl; [by rewrite IH|].
  by rewrite <- Permutation_middle, IH.
Qed.

Lemma sort_values_perm (s : list (string * float)) : sort_values s ≡ₚ s.
Proof.
  unfold sort_values. rewrite sorted_by_value_perm. apply filter_split_perm.
Qed.

Lemma precedes_defined (a b : string * float) :
  defined a = true -> defined b = true ->
  (snd a <=? snd b)%float = true -> label_lt (fst a) (fst b) ->
  precedes a b = true.
Proof.
  unfold defined, precedes. intros ->%negb_true_iff ->%negb_true_iff Hle Hlt.
  simpl. destruct (F64Facts.leb_cases _ _ Hle) as [-> | ->]; [done|].
  rewrite Hlt. apply orb_true_r.
Qed.

Lemma precedes_leb (a b : string * float) :
  defined a = true -> defined b = true -> precedes a b = true ->
  (snd a <=? snd b)%float = true.
Proof.
  unfold defined, precedes. intros ->%negb_true_iff ->%negb_true_iff. simpl.
  intros [H|[H _]%andb_true_iff]%orb_true_iff;
    [by apply F64Facts.ltb_leb | by apply F64Facts.eqb_leb].
Qed.

Lemma precedes_ltb (a b : string * float) :
  defined a = true -> (snd a <? snd b)%float = true -> precedes a b = true.
Proof.
  unfold defined, precedes. intros ->%negb_true_iff ->. by rewrite orb_true_r.
Qed.

Lemma insert_value_sorted (x : string * float) (l : list (string * float)) :
  defined x = true -> Forall (above x) l ->
  StronglySorted (fun a b => precedes a b = true) l ->
  StronglySorted (fun a b => precedes a b = true) (insert_value x l).
Proof.
  intros Hx Hl Hs. induction Hs as [|y l Hs IH Hy]; simpl; [repeat constructor|].
  apply Forall_cons in Hl as [[Hdy Hxy] Hl].
  destruct (snd x <=? snd y)%float eqn:E.
  - constructor; [by constructor|]. constructor; [by apply precedes_defined|].
    rewrite Forall_forall in Hy, Hl. apply Forall_forall. intros z Hz.
    destruct (Hl z Hz) as [Hdz Hxz].
    apply precedes_defined; try done.
    apply (F64Facts.leb_trans _ (snd y)); [done|].
    apply precedes_leb; auto.
  - constructor; [by apply IH|].
    apply (Forall_Permutation (fun z => precedes y z = true)
             (fun z => precedes y z = true) ltac:(done) _ _
             (insert_value_perm x l)).
    constructor; [|done]. apply precedes_ltb; [done|].
    apply F64Facts.leb_false_ltb; try done;
      by apply negb_true_iff.
Qed.

Lemma sorted_by_value (l : list (string * float)) :
  StronglySorted by_label l -> Forall (fun y => defined y = true) l ->
  StronglySorted (fun a b => precedes a b = true) (foldr insert_value [] l).
Proof.
  induction 1 as [|x l Hs IH Hx]; simpl; [constructor|].
  intros [Hdx Hdl]%Forall_cons. apply insert_value_sorted; [done| |by apply IH].
  rewrite sorted_by_value_perm.
  rewrite Forall_forall in Hx, Hdl. apply Forall_forall. intros y Hy.
  split; [by apply Hdl | by apply Hx].
Qed.

Lemma filter_sorted {A} (R : A -> A -> Prop) (P : A -> bool) (l : list A) :
  StronglySorted R l -> StronglySorted R (List.filter P l).
Proof.
  induction 1 as [|x l Hs IH Hx]; simpl; [constructor|].
  destruct (P x); [|done]. constructor; [done|].
  rewrite Forall_forall in Hx. apply Forall_forall. intros y Hy.
  apply Hx. apply list_elem_of_In, filter_In in Hy as [Hy _].
  by apply list_elem_of_In.
Qed.

Lemma filter_Forall {A} (P : A -> bool) (l : list A) :
  Forall (fun x => P x = true) (List.filter P l).
Proof.
  apply Forall_forall. intros x Hx. by apply list_elem_of_In, filter_In in Hx as [_ Hx].
Qed.

Lemma sorted_undefined (l : list (string * float)) :
  StronglySorted by_label l -> Forall (fun y => negb (defined y) = true) l ->
  StronglySorted (fun a b => precedes a b = true) l.
Proof.
  induction 1 as [|x l Hs IH Hx]; [constructor|].
  intros [Hdx Hdl]%Forall_cons. constructor; [by apply IH|].
  rewrite Forall_forall in Hx, Hdl. apply Forall_forall. intros y Hy.
  specialize (Hx y Hy). specialize (Hdl y Hy).
  unfold defined, precedes, by_label, label_lt in *.
  rewrite negb_involutive in Hdx, Hdl. by rewrite Hdx, Hdl, Hx.
Qed.

Lemma sort_values_sorted (s : list (string * float)) :
  StronglySorted by_label s ->
  StronglySorted (fun a b => precedes a b = true) (sort_values s).
Proof.
  intros Hs. unfold sort_values. apply StronglySorted_app_2.
  - intros a b Ha Hb. rewrite sorted_by_value_perm in Ha.
    apply list_elem_of_In, filter_In in Ha as [_ Ha].
    apply list_elem_of_In, filter_In in Hb as [_ Hb].
    unfold defined, precedes in *. apply negb_true_iff in Ha.
    rewrite negb_involutive in Hb. by rewrite Ha, Hb.
  - apply sorted_by_value; [by apply filter_sorted | apply filter_Forall].
  - apply sorted_undefined; [by apply filter_sorted|].
    apply (filter_Forall (fun p => negb (defined p))).
Qed.

(** ** The most deficitary regions *)

Section TopRisque.
Context {lib : Library}.

Lemma region_means_groups (f : frame) (ks : list (option string))
  (xs : list float) :
  getitem f REGION = Ok (Object ks) -> getitem f DELTA_PC = Ok (Float64 xs) ->
  region_means f
  = Ok (map (fun r => (r, mean_of ks xs r))
            (distinct_sorted String.eqb String.leb (omap id ks))).
Proof.
  intros Hr Hx. unfold region_means, groupby_region. rewrite Hr; simpl.
  rewrite Hx; simpl. unfold grouping. by rewrite map_map.
Qed.

Lemma entries_by_label (m : string -> float) (l : list string) :
  StronglySorted label_lt l ->
  StronglySorted by_label (map (fun r => (r, m r)) l).
Proof.
  induction 1 as [|x l Hs IH Hx]; simpl; constructor; [done|].
  apply Forall_map. eapply Forall_impl; [exact Hx|]. by intros y Hy.
Qed.

Lemma labels_sorted (m : string -> float) (l : list (string * float)) :
  Forall (fun p => p = (fst p, m (fst p))) l ->
  StronglySorted (fun a b => precedes a b = true) l ->
  StronglySorted (fun a b => precedes (a, m a) (b, m b) = true) (map fst l).
Proof.
  intros Hl Hs. induction Hs as [|x l Hs IH Hx]; simpl; constructor.
  - apply IH. by apply Forall_cons in Hl as [_ Hl].
  - apply Forall_cons in Hl as [Ex Hl]. apply Forall_map.
    rewrite Forall_forall in Hx, Hl. apply Forall_forall. intros y Hy.
    simpl. rewrite <- Ex, <- (Hl y Hy). by apply Hx.
Qed.

(** C6. The list of line 256 has five labels, or as many as the data set
    has distinct regions if these are fewer; they are distinct regions of
    the data set, in ascending order of their mean delta with equal means
    in the order of the labels (regions without a mean last), and no
    region left out comes before one of them in this order. *)
Theorem top_risque_sorted (f : frame) (ks : list (option string))
  (xs : list float) :
  getitem f REGION = Ok (Object ks) ->
  getitem f DELTA_PC = Ok (Float64 xs) ->
  exists top, top_risque f = Ok top
    /\ length top = Nat.min 5 (size (list_to_set (omap id ks) : gset string))
    /\ NoDup top
    /\ (forall r, r ∈ top -> Some r ∈ ks)
    /\ StronglySorted
         (fun a b => precedes (a, mean_of ks xs a) (b, mean_of ks xs b) = true) top
    /\ (forall r t, Some r ∈ ks -> r ∉ top -> t ∈ top ->
          precedes (t, mean_of ks xs t) (r, mean_of ks xs r) = true).
Proof.
  intros Hr Hx. unfold top_risque.
  rewrite (region_means_groups _ _ _ Hr Hx).
  cbv beta iota delta [mbind outcome_bind].
  set (m := mean_of ks xs).
  set (R := distinct_sorted String.eqb String.leb (omap id ks)).
  set (s := map (fun r => (r, m r)) R).
  unfold nsmallest. set (S := sort_values s).
  assert (HR : StronglySorted label_lt R) by apply distinct_sorted_sorted.
  assert (P1 : S ≡ₚ s) by apply sort_values_perm.
  assert (P2 : Forall (fun p => p = (fst p, m (fst p))) S).
  { rewrite P1. subst s. apply Forall_map, Forall_forall. by intros. }
  assert (P3 : map fst S ≡ₚ R).
  { rewrite (fmap_Permutation fst _ _ P1). subst s.
    rewrite map_map; simpl. by rewrite map_id. }
  assert (P4 : StronglySorted (fun a b => precedes a b = true) S)
    by by apply sort_values_sorted, entries_by_label.
  assert (HinR : forall r, r ∈ R <-> Some r ∈ ks).
  { intros r. subst R. rewrite distinct_sorted_elem, list_elem_of_omap.
    split; [by intros ([x|] & Hx1 & [= ->]) | intros H; by exists (Some r)]. }
  pose proof (take_drop 5 S) as Hsplit.
  eexists; split; [reflexivity|]. repeat split.
  - rewrite length_map, length_take, (Permutation_length P1).
    subst s. rewrite length_map. subst R.
    by rewrite distinct_sorted_length.
  - rewrite <- (firstn_map fst). eapply sublist_NoDup; [|apply sublist_take].
    rewrite P3. by apply sorted_NoDup.
  - intros r Hin. apply HinR. rewrite <- P3.
    rewrite <- (firstn_map fst) in Hin.
    eapply elem_of_sublist; [exact Hin | apply sublist_take].
  - apply labels_sorted.
    + rewrite <- Hsplit in P2. by apply Forall_app in P2 as [P2 _].
    + rewrite <- Hsplit in P4. by apply StronglySorted_app_1_l in P4.
  - intros r t Hr' Hout Hin.
    apply list_elem_of_fmap in Hin as (p & -> & Hp).
    assert (Ep : p = (fst p, m (fst p))).
    { rewrite Forall_forall in P2. apply P2. rewrite <- Hsplit.
      apply elem_of_app; by left. }
    rewrite <- Ep.
    rewrite <- Hsplit in P4.
    apply (StronglySorted_app_1_elem_of _ _ _ _ _ P4 Hp).
    assert (Hs : (r, m r) ∈ S).
    { rewrite P1. subst s. apply list_elem_of_fmap. exists r.
      split; [done | by apply HinR]. }
    rewrite <- Hsplit in Hs. apply elem_of_app in Hs as [Hs|Hs]; [|done].
    destruct Hout. apply list_elem_of_fmap. by exists (r, m r).
Qed.

End TopRisque.

(** ** Frames that a computation leaves alone *)

Section Keeps.
Context (h : list frame).

Lemma keeps_bind {A B} (m : M A) (k : A -> M B) (Q : A -> Prop) (R : B -> Prop) :
  keeps h m Q -> (forall a, Q a -> keeps h (k a) R) -> keeps h (m ≫= k) R.
Proof.
  intros Hm Hk ext d. destruct (Hm ext d) as [[ext' He] HQ].
  unfold mbind, M_bind.
  destruct (m (World (h ++ ext) d)) as [[a|e] [h' d']]; simpl in *.
  - subst h'. apply Hk. by apply HQ.
  - split; [by exists ext' | done].
Qed.

Lemma keeps_weaken {A} (m : M A) (Q Q' : A -> Prop) :
  keeps h m Q -> (forall a, Q a -> Q' a) -> keeps h m Q'.
Proof.
  intros Hm HQ ext d. destruct (Hm ext d) as [He Ha]. split; [done|].
  intros a E. by apply HQ, Ha.
Qed.

Lemma keeps_ret {A} (a : A) : keeps h (mret a) any.
Proof. intros ext d. split; [by exists ext | done]. Qed.

Lemma keeps_lift {A} (x : outcome A) : keeps h (lift x) any.
Proof. intros ext d. split; [by exists ext | done]. Qed.

Lemma keeps_stop {A} : keeps h (@st_stop A) any.
Proof. apply keeps_lift. Qed.

Lemma keeps_emit (name : string) (data : list payload) :
  keeps h (emit name data) any.
Proof. intros ext d. split; [by exists ext | done]. Qed.

Lemma keeps_load (l : loc) : keeps h (load l) any.
Proof.
  intros ext d. unfold load; simpl.
  destruct ((h ++ ext) !! l); simpl; (split; [by exists ext | done]).
Qed.

Lemma keeps_new (f : frame) : keeps h (new f) (fresh_for h).
Proof.
  intros ext d. unfold new, fresh_for; simpl. split.
  - exists (ext ++ [f]). by rewrite app_assoc.
  - intros a [= <-]. rewrite length_app. lia.
Qed.

Lemma keeps_store (l : loc) (f : frame) :
  fresh_for h l -> keeps h (store l f) any.
Proof.
  intros Hl ext d. unfold store; simpl. split; [|done].
  exists (<[(l - length h)%nat := f]> ext). by apply insert_app_r_alt.
Qed.

Lemma keeps_assign (l : loc) (label : string) (c : column) :
  fresh_for h l -> keeps h (assign l label c) any.
Proof.
  intros Hl. unfold assign.
  eapply keeps_bind; [apply keeps_load | intros f _].
  eapply keeps_bind; [apply keeps_lift | intros f' _].
  by apply keeps_store.
Qed.

Lemma keeps_rename (l : loc) (labels : list string) :
  fresh_for h l -> keeps h (rename l labels) any.
Proof.
  intros Hl. unfold rename.
  eapply keeps_bind; [apply keeps_load | intros f _].
  eapply keeps_bind; [apply keeps_lift | intros f' _].
  by apply keeps_store.
Qed.

Lemma keeps_copy (l : loc) : keeps h (copy l) (fresh_for h).
Proof.
  unfold copy. eapply keeps_bind; [apply keeps_load | intros f _].
  apply keeps_new.
Qed.

Lemma keeps_add_delta (l : loc) : fresh_for h l -> keeps h (add_delta l) any.
Proof.
  intros Hl. unfold add_delta.
  eapply keeps_bind; [apply keeps_load | intros f _].
  eapply keeps_bind; [apply keeps_lift | intros d _].
  by apply keeps_assign.
Qed.

Lemma keeps_chart (kind : string) (data : list payload) :
  keeps h (chart kind data) any.
Proof. apply keeps_emit. Qed.

Lemma keeps_choropleth (mode : string) (f : frame) :
  keeps h (choropleth mode f) any.
Proof.
  unfold choropleth. destruct (existsb _ _); [apply keeps_chart | apply keeps_lift].
Qed.

End Keeps.

Ltac keeps_rule :=
  first [ apply keeps_new | apply keeps_copy | apply keeps_load | apply keeps_emit
        | apply keeps_chart | apply keeps_choropleth | apply keeps_lift | apply keeps_ret | apply keeps_stop
        | apply keeps_assign; assumption | apply keeps_rename; assumption
        | apply keeps_add_delta; assumption ].

Ltac keeps_run :=
  cbv zeta;
  repeat first
    [ keeps_rule
    | eapply keeps_bind; [keeps_rule | intros ? ?]
    | match goal with
      | |- keeps _ (if ?b then _ else _) _ => destruct b
      | |- keeps _ ((if ?b then _ else _) ≫= _) _ => destruct b
      end ].

Section Frame.
Context {lib : Library}.

Lemma keeps_sidebar (h : list frame) (df : loc) : keeps h (sidebar df) any.
Proof. unfold sidebar. keeps_run. Qed.

Lemma keeps_render (h : list frame) (p : page) (df df_filtered : loc)
  (region : option string) (annee : Z * Z) :
  fresh_for h df_filtered ->
  keeps h (render p df df_filtered region annee) any.
Proof.
  intros Hf.
  destruct p; simpl;
    unfold page_accueil, page_exploration, page_visualisations,
      page_risque_national, page_focus_hiver, page_focus_enr, page_synthese,
      page_conclusion, page_scenario_2030;
    keeps_run.
Qed.

Lemma keeps_serve (h : list frame) (df : loc) (p : page)
  (region : option string) (annee : Z * Z) :
  keeps h (serve df p region annee) any.
Proof.
  unfold serve.
  eapply keeps_bind; [apply keeps_load | intros f _].
  eapply keeps_bind; [apply keeps_emit | intros _ _].
  eapply keeps_bind; [apply keeps_sidebar | intros _ _].
  eapply keeps_bind; [apply keeps_load | intros f' _].
  eapply keeps_bind; [apply keeps_lift | intros filtered _].
  eapply keeps_bind; [apply keeps_new | intros df_filtered Hf].
  by apply keeps_render.
Qed.

(** C8. Once the enriched data set is at [df], what the script runs for
    any page, region and years (side bar, filter, page; lines 38-281)
    leaves it, and every frame that existed before, as it was: the columns
    it adds (delta, Prod_ENR, Simul_delta, Mois) go to frames it has
    allocated itself. *)
Theorem serve_keeps_dataset (w : world) (df : loc) (f : frame) (p : page)
  (region : option string) (annee : Z * Z) :
  heap w !! df = Some f ->
  heap (serve df p region annee w).2 !! df = Some f
  /\ exists ext, heap (serve df p region annee w).2 = heap w ++ ext.
Proof.
  intros Hl.
  destruct (keeps_serve (heap w) df p region annee [] (display w)) as [[ext He] _].
  rewrite app_nil_r in He. destruct w as [hw dw]; simpl in *.
  rewrite He. split; [by apply lookup_app_l_Some | by exists ext].
Qed.

End Frame.

(** ** Computations that do not read one frame *)

Section Blind.
Context (lf : loc).

Lemma blind_bind {A B} (m : M A) (k : A -> M B) (Q : A -> Prop) (R : B -> Prop) :
  blind lf m Q -> (forall a, Q a -> blind lf (k a) R) -> blind lf (m ≫= k) R.
Proof.
  intros Hm Hk w1 w2 Hw. destruct (Hm w1 w2 Hw) as (E & Hw' & HQ).
  unfold mbind, M_bind.
  destruct (m w1) as [[a1|e1] w1'], (m w2) as [[a2|e2] w2']; simpl in *;
    try done.
  - injection E as <-. apply Hk; [by apply HQ | done].
  - injection E as <-. split; [done | split; [done | by intros]].
Qed.

Lemma blind_ret {A} (a : A) : blind lf (mret a) any.
Proof. by intros w1 w2 Hw. Qed.

Lemma blind_lift {A} (x : outcome A) : blind lf (lift x) any.
Proof. by intros w1 w2 Hw. Qed.

Lemma blind_emit (name : string) (data : list payload) :
  blind lf (emit name data) any.
Proof.
  intros w1 w2 (Hd & Hn & Hlt & Hh). unfold emit, alike; simpl.
  split; [done|]. split; [|done].
  split; [by rewrite Hd | done].
Qed.

Lemma blind_chart (kind : string) (data : list payload) :
  blind lf (chart kind data) any.
Proof. apply blind_emit. Qed.

Lemma blind_load (l : loc) : other_than lf l -> blind lf (load l) any.
Proof.
  intros Hl w1 w2 Hw. pose proof Hw as (Hd & Hn & Hlt & Hh).
  unfold load. rewrite (Hh l Hl).
  by destruct (heap w2 !! l).
Qed.

Lemma blind_new (f : frame) : blind lf (new f) (other_than lf).
Proof.
  intros w1 w2 (Hd & Hn & Hlt & Hh). unfold new, other_than, alike; simpl.
  rewrite !length_app; simpl.
  split; [by rewrite Hn|]. split.
  - split; [done|]. split; [lia|]. split; [lia|].
    intros l Hl. by rewrite !lookup_app, (Hh l Hl), Hn.
  - intros a [= <-]. lia.
Qed.

Lemma blind_store (l : loc) (f : frame) : blind lf (store l f) any.
Proof.
  intros w1 w2 (Hd & Hn & Hlt & Hh). unfold store, alike; simpl.
  rewrite !length_insert.
  split; [done|]. split; [|done].
  split; [done|]. split; [done|]. split; [done|].
  intros l' Hl'. by rewrite !list_lookup_insert, (Hh l' Hl'), Hn.
Qed.

Lemma blind_assign (l : loc) (label : string) (c : column) :
  other_than lf l -> blind lf (assign l label c) any.
Proof.
  intros Hl. unfold assign.
  eapply blind_bind; [by apply blind_load | intros f _].
  eapply blind_bind; [apply blind_lift | intros f' _].
  apply blind_store.
Qed.

Lemma blind_copy (l : loc) : other_than lf l -> blind lf (copy l) (other_than lf).
Proof.
  intros Hl. unfold copy.
  eapply blind_bind; [by apply blind_load | intros f _].
  apply blind_new.
Qed.

Lemma blind_add_delta (l : loc) : other_than lf l -> blind lf (add_delta l) any.
Proof.
  intros Hl. unfold add_delta.
  eapply blind_bind; [by apply blind_load | intros f _].
  eapply blind_bind; [apply blind_lift | intros d _].
  by apply blind_assign.
Qed.

End Blind.

Ltac blind_rule :=
  first [ apply blind_new | apply blind_copy; assumption | apply blind_load; assumption
        | apply blind_emit | apply blind_chart | apply blind_lift | apply blind_ret
        | apply blind_assign; assumption | apply blind_add_delta; assumption ].

Ltac blind_run :=
  cbv zeta;
  repeat first
    [ blind_rule
    | eapply blind_bind; [blind_rule | intros ? ?] ].

Lemma same_view_bind {A B} (m : M A) (k1 k2 : A -> M B) (w : world) :
  (forall a w', same_view (k1 a w') (k2 a w')) ->
  same_view ((m ≫= k1) w) ((m ≫= k2) w).
Proof.
  intros H. unfold mbind, M_bind. destruct (m w) as [[a|e] w']; [apply H | done].
Qed.

Lemma same_view_load {B} (l : loc) (k1 k2 : frame -> M B) (w : world) :
  (forall f, heap w !! l = Some f -> same_view (k1 f w) (k2 f w)) ->
  same_view ((load l ≫= k1) w) ((load l ≫= k2) w).
Proof.
  intros H. unfold mbind, M_bind, load.
  destruct (heap w !! l) as [f|]; [by apply H | done].
Qed.

Section Context.
Context {lib : Library}.

(** An exception of the filter does not depend on the selection. *)
Lemma filter_rows_outcome (f : frame) (r1 r2 : option string) (a1 a2 : Z * Z) :
  (exists g1 g2, filter_rows f r1 a1 = Ok g1 /\ filter_rows f r2 a2 = Ok g2)
  \/ (exists e, filter_rows f r1 a1 = Raise e /\ filter_rows f r2 a2 = Raise e).
Proof.
  unfold filter_rows.
  destruct (getitem f REGION) as [rc|e]; simpl; [|right; by exists e].
  destruct (getitem f ANNEE) as [yc|e]; simpl; [|right; by exists e].
  destruct yc; simpl; first [left; by eauto | right; by eexists].
Qed.

Lemma blind_scenario (lf df : loc) :
  other_than lf df -> blind lf (page_scenario_2030 df) any.
Proof. intros Hdf. unfold page_scenario_2030. blind_run. Qed.

Lemma blind_risque (lf df : loc) :
  other_than lf df -> blind lf (page_risque_national df) any.
Proof. intros Hdf. unfold page_risque_national. blind_run. Qed.

Lemma serve_same_view (w : world) (df : loc) (p : page)
  (r1 r2 : option string) (a1 a2 : Z * Z) :
  p = Scenario2030 \/ p = RisqueNational ->
  same_view (serve df p r1 a1 w) (serve df p r2 a2 w).
Proof.
  intros Hp. unfold serve.
  apply same_view_load; intros f0 _.
  apply same_view_bind; intros _ w1.
  apply same_view_bind; intros _ w2.
  apply same_view_load; intros f Hf.
  destruct (filter_rows_outcome f r1 r2 a1 a2)
    as [(g1 & g2 & E1 & E2) | (e & E1 & E2)]; rewrite E1, E2;
    [|by rewrite !run_lift_raise].
  rewrite !run_lift_ok, !run_new. cbv beta.
  set (lf := length (heap w2)).
  assert (Hdf : other_than lf df).
  { unfold other_than, lf. apply lookup_lt_Some in Hf. lia. }
  assert (Hw : alike lf (World (heap w2 ++ [g1]) (display w2))
                 (World (heap w2 ++ [g2]) (display w2))).
  { unfold alike, lf; simpl. rewrite !length_app; simpl.
    split; [done|]. split; [done|]. split; [lia|].
    intros l Hl. rewrite !lookup_app.
    destruct (heap w2 !! l) eqn:E; [done|].
    apply lookup_ge_None in E.
    by rewrite !lookup_ge_None_2 by (simpl; lia). }
  destruct Hp as [-> | ->]; simpl.
  - destruct (blind_scenario lf df Hdf _ _ Hw) as (E & (Hd & _) & _). by split.
  - destruct (blind_risque lf df Hdf _ _ Hw) as (E & (Hd & _) & _). by split.
Qed.

(** C10. Two runs of the script on the same file that differ only in the
    selected region and years return the same result and show the same
    display on the pages "Scénario 2030" and "Risque national": the list
    of the five most deficitary regions and the national aggregation that
    these pages display are computed from the whole data set. *)
Theorem filter_context_irrelevant (csv : frame) (p : page)
  (r1 r2 : option string) (a1 a2 : Z * Z) :
  p = Scenario2030 \/ p = RisqueNational ->
  (main csv p r1 a1 start).1 = (main csv p r2 a2 start).1
  /\ display (main csv p r1 a1 start).2 = display (main csv p r2 a2 start).2.
Proof.
  intros Hp. unfold main.
  apply (same_view_bind (new csv)); intros df w.
  apply (same_view_bind (validate df)); intros _ w1.
  apply (same_view_bind (enrich df)); intros _ w2.
  by apply serve_same_view.
Qed.

End Context.

(** * Further properties of the script *)

(** ** The schema check, the region list and the year bounds *)

Section Start.
Context {lib : Library}.

(** X1. Without the label "Date - Heure" among the labels read from the
    file, the script stops for every page and selection: it has shown the
    labels and the error message and nothing else, and the frame is as it
    was read. *)
Theorem main_stops_without_date (csv : frame) (p : page)
  (region : option string) (annee : Z * Z) :
  has_date csv = false ->
  main csv p region annee start
  = (Raise StopException,
     World [csv]
       [Event "write" [Text "Colonnes disponibles dans le fichier :"];
        Event "write" [Labels (names csv)];
        Event "error"
          [Text "La colonne 'Date - Heure' est introuvable dans le fichier."]]).
Proof.
  intros Hd. unfold main. rewrite run_new. cbv beta.
  assert (Hl : heap (World (heap start ++ [csv]) (display start)) !! 0%nat
               = Some csv) by done.
  pose proof (validate_outcome _ _ _ Hl) as Hv. rewrite Hd in Hv.
  by rewrite (run_bind_raise _ _ _ _ _ Hv).
Qed.

End Start.

(** X2. The regions offered by the select box (line 47) are the labels that
    occur in the region column, each once, in ascending order; a missing
    cell gives no entry. *)
Theorem regions_of_sorted (ks : list (option string)) :
  exists rs, regions_of (Object ks) = Ok rs
    /\ StronglySorted label_lt rs
    /\ NoDup rs
    /\ forall r, r ∈ rs <-> Some r ∈ ks.
Proof.
  eexists; split; [reflexivity|].
  split; [apply distinct_sorted_sorted|].
  split; [apply sorted_NoDup, distinct_sorted_sorted|].
  intros r. rewrite distinct_sorted_elem, list_elem_of_omap.
  split; [by intros ([x|] & Hx & [= ->]) | intros H; by exists (Some r)].
Qed.

Lemma foldr_min_spec (y : Z) (l : list Z) :
  foldr Z.min y l ∈ y :: l /\ forall x, x ∈ y :: l -> foldr Z.min y l <= x.
Proof.
  induction l as [|z l [IH1 IH2]]; simpl.
  - split; [by left|]. intros x ->%list_elem_of_singleton. lia.
  - split.
    + rewrite !elem_of_cons in *.
      destruct (Z.min_spec z (foldr Z.min y l)) as [[_ ->]|[_ ->]]; tauto.
    + intros x Hx. apply elem_of_cons in Hx as [->|[->|Hx]%elem_of_cons].
      * specialize (IH2 y ltac:(by left)). lia.
      * lia.
      * specialize (IH2 x ltac:(by right)). lia.
Qed.

Lemma foldr_max_spec (y : Z) (l : list Z) :
  foldr Z.max y l ∈ y :: l /\ forall x, x ∈ y :: l -> x <= foldr Z.max y l.
Proof.
  induction l as [|z l [IH1 IH2]]; simpl.
  - split; [by left|]. intros x ->%list_elem_of_singleton. lia.
  - split.
    + rewrite !elem_of_cons in *.
      destruct (Z.max_spec z (foldr Z.max y l)) as [[_ ->]|[_ ->]]; tauto.
    + intros x Hx. apply elem_of_cons in Hx as [->|[->|Hx]%elem_of_cons].
      * specialize (IH2 y ltac:(by left)). lia.
      * lia.
      * specialize (IH2 x ltac:(by right)). lia.
Qed.

(** X3. When at least one row has a year, the bounds given to the slider
    (line 49) are years of the data set and enclose every year of it. *)
Theorem year_bounds_enclose (ys : list (option Z)) (y0 : Z) :
  Some y0 ∈ ys ->
  exists lo hi, year_bounds (IntNA ys) = Ok (lo, hi)
    /\ Some lo ∈ ys /\ Some hi ∈ ys
    /\ forall y, Some y ∈ ys -> lo <= y <= hi.
Proof.
  intros H0. unfold year_bounds.
  assert (Hin : forall y, y ∈ omap id ys <-> Some y ∈ ys).
  { intros y. rewrite list_elem_of_omap.
    split; [by intros ([x|] & Hx & [= ->]) | intros H; by exists (Some y)]. }
  destruct (omap id ys) as [|y l] eqn:E.
  { apply Hin in H0. by apply elem_of_nil in H0. }
  destruct (foldr_min_spec y l) as [M1 M2], (foldr_max_spec y l) as [N1 N2].
  eexists _, _. split; [reflexivity|].
  split; [by apply Hin|]. split; [by apply Hin|].
  intros x Hx%Hin. split; [by apply M2 | by apply N2].
Qed.

(** ** What the enrichment keeps, and the columns the side bar needs *)

Lemma getitem_relabel_any (g : string -> string) (f : frame) (label : string)
  (c : column) :
  distinct (map g (names f)) = true ->
  getitem f label = Ok c ->
  getitem (mkFrame (index f) (relabel g (columns f))) (g label) = Ok c.
Proof.
  unfold getitem, names; simpl.
  induction (columns f) as [|[l0 c0] cs IH]; simpl; [done|].
  intros [Hn Hd]%andb_true_iff. apply negb_true_iff in Hn.
  destruct (String.eqb_spec l0 label) as [->|Hne]; simpl.
  - rewrite String.eqb_refl, (relabel_absent _ _ _ Hn).
    destruct (List.filter _ cs); [done|]. by destruct p.
  - destruct (String.eqb_spec (g l0) (g label)) as [E|_]; [|by apply IH].
    intros Hc. exfalso.
    assert (Hne' : List.filter (fun p => String.eqb (fst p) label) cs <> []).
    { intros E'. by rewrite E' in Hc. }
    apply (relabel_present g) in Hne'. rewrite <- E in Hne'. congruence.
Qed.

Lemma getitem_absent (f : frame) (label : string) :
  existsb (String.eqb label) (names f) = false ->
  getitem f label = Raise (KeyError label).
Proof.
  intros H. unfold getitem, names in *.
  rewrite has_label_distinct in H. by rewrite (filter_absent _ _ H).
Qed.

Lemma getitem_has_date (f : frame) (c : column) :
  getitem f DATE = Ok c -> has_date f = true.
Proof.
  unfold has_date. destruct (existsb _ _) eqn:E; [done|].
  by rewrite (getitem_absent _ _ E).
Qed.

Ltac step_load_in H :=
  match goal with
  | |- context [(load ?l ≫= _) ?w'] =>
      let Hl := fresh in
      assert (Hl : heap w' !! l = Some _) by (simpl; exact H);
      step_load Hl; clear Hl
  end.

Section Steps.
Context {lib : Library}.

(** The four assignments of lines 28-35, one after the other. *)
Lemma enrich_steps (w : world) (df : loc) (f : frame) (xs : list (option string))
  (read : string -> option Timestamp) :
  heap w !! df = Some f ->
  well_formed f = true ->
  distinct (map Strip.strip (names f)) = true ->
  getitem f DATE = Ok (Object xs) ->
  to_datetime xs = Ok read ->
  let ts := map (fun o => o ≫= read) xs in
  let f1 := mkFrame (index f) (relabel Strip.strip (columns f)) in
  exists f2 f3 f4,
    with_column f1 DATE (Datetime ts) = Ok f2
    /\ with_column f2 ANNEE (IntNA (map (fmap year) ts)) = Ok f3
    /\ with_column f3 MOIS (IntNA (map (fmap month) ts)) = Ok f4
    /\ getitem f4 ANNEE = Ok (IntNA (map (fmap year) ts))
    /\ enrich df w = (Ok tt, World (<[df := f4]> (heap w)) (display w)).
Proof.
  intros Hl Hwf Hd Hg Hread ts f1.
  assert (Hg1 : getitem f1 DATE = Ok (Object xs)) by by apply getitem_relabel.
  assert (Hd1 : distinct (names f1) = true)
    by (subst f1; by rewrite names_relabel).
  assert (Hlen : length xs = length (index f))
    by apply (getitem_length _ _ _ Hwf Hg).
  destruct (with_column_ok f1 DATE (Datetime ts)) as [f2 H2];
    [subst ts; simpl; by rewrite length_map|].
  destruct (getitem_with_column _ _ _ _ Hd1 H2) as [Hg2 Hi2].
  pose proof (distinct_with_column _ _ _ _ Hd1 H2) as Hd2.
  destruct (with_column_ok f2 ANNEE (IntNA (map (fmap year) ts))) as [f3 H3];
    [subst ts; simpl; rewrite !length_map, Hi2; done|].
  destruct (getitem_with_column _ _ _ _ Hd2 H3) as [Hg3 Hi3].
  pose proof (distinct_with_column _ _ _ _ Hd2 H3) as Hd3.
  destruct (with_column_ok f3 MOIS (IntNA (map (fmap month) ts))) as [f4 H4];
    [subst ts; simpl; rewrite !length_map, Hi3, Hi2; done|].
  assert (Hdate3 : getitem f3 DATE = Ok (Datetime ts)).
  { rewrite (getitem_with_column_other f2 f3 ANNEE DATE _ ltac:(done) H3). done. }
  exists f2, f3, f4. repeat split; try done.
  { by rewrite (getitem_with_column_other f3 f4 MOIS ANNEE _ ltac:(done) H4). }
  unfold enrich. step_load Hl.
  rewrite (run_bind _ _ _ _ _
             (run_rename _ _ _ _ _ Hl (with_names_relabel Strip.strip f))).
  fold f1. cbv beta.
  set (w1 := World (<[df := f1]> (heap w)) (display w)).
  assert (Hl1 : heap w1 !! df = Some f1) by by eapply heap_updated.
  step_load Hl1. step_lift Hg1.
  rewrite (to_datetime_col_text xs read Hread). fold ts.
  rewrite run_lift_ok; cbv beta.
  rewrite (run_bind _ _ _ _ _ (run_assign _ _ _ _ _ _ Hl1 H2)).
  set (w2 := World (<[df := f2]> (heap w1)) (display w1)).
  assert (Hl2 : heap w2 !! df = Some f2) by by eapply heap_updated.
  step_load Hl2. step_lift Hg2.
  change (dt_field year (Datetime ts)) with (Ok (IntNA (map (fmap year) ts))).
  rewrite run_lift_ok; cbv beta.
  rewrite (run_bind _ _ _ _ _ (run_assign _ _ _ _ _ _ Hl2 H3)).
  set (w3 := World (<[df := f3]> (heap w2)) (display w2)).
  assert (Hl3 : heap w3 !! df = Some f3) by by eapply heap_updated.
  step_load Hl3. step_lift Hdate3.
  change (dt_field month (Datetime ts)) with (Ok (IntNA (map (fmap month) ts))).
  rewrite run_lift_ok; cbv beta.
  rewrite (run_assign _ _ _ _ _ _ Hl3 H4).
  subst w3 w2 w1; simpl. by rewrite !list_insert_insert_eq.
Qed.

(** A column that is none of the three the enrichment writes. *)
Lemma enriched_other (f1 f2 f3 f4 : frame) (c2 c3 c4 : column) (label : string) :
  with_column f1 DATE c2 = Ok f2 ->
  with_column f2 ANNEE c3 = Ok f3 ->
  with_column f3 MOIS c4 = Ok f4 ->
  label <> DATE -> label <> ANNEE -> label <> MOIS ->
  getitem f4 label = getitem f1 label.
Proof.
  intros H2 H3 H4 N1 N2 N3.
  rewrite (getitem_with_column_other f3 f4 MOIS label _ N3 H4).
  rewrite (getitem_with_column_other f2 f3 ANNEE label _ N2 H3).
  by rewrite (getitem_with_column_other f1 f2 DATE label _ N1 H2).
Qed.

Lemma run_assign_raise (l : loc) (label : string) (c : column) (f : frame)
  (e : exn) (w : world) :
  heap w !! l = Some f -> with_column f label c = Raise e ->
  assign l label c w = (Raise e, w).
Proof.
  intros Hl Hc. unfold assign.
  rewrite (run_bind _ _ _ _ _ (run_load _ _ _ Hl)).
  unfold lift, mbind, M_bind. by rewrite Hc.
Qed.

Lemma with_column_index (f f' : frame) (label : string) (c : column) :
  with_column f label c = Ok f' -> index f' = index f.
Proof. unfold with_column. destruct (Nat.eqb _ _); [|done]. by intros [= <-]. Qed.

(** The assignments of a run of lines 28-35 that returns. *)
Lemma enrich_returns (w : world) (df : loc) (f : frame) :
  heap w !! df = Some f ->
  distinct (map Strip.strip (names f)) = true ->
  (enrich df w).1 = Ok tt ->
  let f1 := mkFrame (index f) (relabel Strip.strip (columns f)) in
  exists d y m f2 f3 f4,
    with_column f1 DATE d = Ok f2
    /\ with_column f2 ANNEE y = Ok f3
    /\ with_column f3 MOIS m = Ok f4
    /\ enrich df w = (Ok tt, World (<[df := f4]> (heap w)) (display w)).
Proof.
  intros Hl Hd Hret f1. revert Hret.
  assert (Hd1 : distinct (names f1) = true)
    by (subst f1; by rewrite names_relabel).
  unfold enrich. step_load Hl.
  rewrite (run_bind _ _ _ _ _
             (run_rename _ _ _ _ _ Hl (with_names_relabel Strip.strip f))).
  fold f1. cbv beta.
  set (w1 := World (<[df := f1]> (heap w)) (display w)).
  assert (Hl1 : heap w1 !! df = Some f1) by by eapply heap_updated.
  step_load Hl1.
  destruct (getitem f1 DATE) as [c|e]; [|by rewrite run_lift_raise].
  rewrite run_lift_ok; cbv beta.
  destruct (to_datetime_col c) as [d|e]; [|by rewrite run_lift_raise].
  rewrite run_lift_ok; cbv beta.
  destruct (with_column f1 DATE d) as [f2|e] eqn:H2;
    [|by rewrite (run_bind_raise _ _ _ _ _ (run_assign_raise _ _ _ _ _ _ Hl1 H2))].
  rewrite (run_bind _ _ _ _ _ (run_assign _ _ _ _ _ _ Hl1 H2)).
  destruct (getitem_with_column _ _ _ _ Hd1 H2) as [Hg2 _].
  pose proof (distinct_with_column _ _ _ _ Hd1 H2) as Hd2.
  set (w2 := World (<[df := f2]> (heap w1)) (display w1)).
  assert (Hl2 : heap w2 !! df = Some f2) by by eapply heap_updated.
  step_load Hl2. step_lift Hg2.
  destruct (dt_field year d) as [y|e]; [|by rewrite run_lift_raise].
  rewrite run_lift_ok; cbv beta.
  destruct (with_column f2 ANNEE y) as [f3|e] eqn:H3;
    [|by rewrite (run_bind_raise _ _ _ _ _ (run_assign_raise _ _ _ _ _ _ Hl2 H3))].
  rewrite (run_bind _ _ _ _ _ (run_assign _ _ _ _ _ _ Hl2 H3)).
  assert (Hg3 : getitem f3 DATE = Ok d).
  { by rewrite (getitem_with_column_other f2 f3 ANNEE DATE _ ltac:(done) H3). }
  set (w3 := World (<[df := f3]> (heap w2)) (display w2)).
  assert (Hl3 : heap w3 !! df = Some f3) by by eapply heap_updated.
  step_load Hl3. step_lift Hg3.
  destruct (dt_field month d) as [m|e]; [|by rewrite run_lift_raise].
  rewrite run_lift_ok; cbv beta.
  destruct (with_column f3 MOIS m) as [f4|e] eqn:H4;
    [|by rewrite (run_assign_raise _ _ _ _ _ _ Hl3 H4)].
  rewrite (run_assign _ _ _ _ _ _ Hl3 H4). intros _.
  exists d, y, m, f2, f3, f4.
  split; [done|]. split; [done|]. split; [done|].
  subst w3 w2 w1; simpl. by rewrite !list_insert_insert_eq.
Qed.

(** X4. Whenever the enrichment returns, it has kept the row labels and,
    under its trimmed label, every column other than the timestamp, the
    year and the month: no row is dropped and no other cell is changed,
    also where a timestamp could not be read. *)
Theorem enrich_keeps_columns (w : world) (df : loc) (f : frame)
  (label : string) (c : column) :
  heap w !! df = Some f ->
  distinct (map Strip.strip (names f)) = true ->
  getitem f label = Ok c ->
  Strip.strip label <> DATE ->
  Strip.strip label <> ANNEE ->
  Strip.strip label <> MOIS ->
  (enrich df w).1 = Ok tt ->
  exists f',
    enrich df w = (Ok tt, World (<[df := f']> (heap w)) (display w))
    /\ index f' = index f
    /\ getitem f' (Strip.strip label) = Ok c.
Proof.
  intros Hl Hd Hc N1 N2 N3 Hret.
  destruct (enrich_returns w df f Hl Hd Hret)
    as (d & y & m & f2 & f3 & f4 & H2 & H3 & H4 & Hrun).
  exists f4. split; [exact Hrun|]. split.
  - rewrite (with_column_index _ _ _ _ H4), (with_column_index _ _ _ _ H3).
    by rewrite (with_column_index _ _ _ _ H2).
  - rewrite (enriched_other _ _ _ _ _ _ _ _ H2 H3 H4 N1 N2 N3).
    by apply getitem_relabel_any.
Qed.

Lemma sidebar_without_region (w : world) (df : loc) (f : frame) (e : exn) :
  heap w !! df = Some f -> getitem f REGION = Raise e ->
  (sidebar df w).1 = Raise e.
Proof.
  intros Hl Hr. unfold sidebar. rewrite !run_emit. step_load_in Hl.
  by rewrite Hr, run_lift_raise.
Qed.


Lemma serve_sidebar_raises (w : world) (df : loc) (f : frame) (p : page)
  (region : option string) (annee : Z * Z) (e : exn) :
  heap w !! df = Some f ->
  (forall w', heap w' = heap w -> (sidebar df w').1 = Raise e) ->
  (serve df p region annee w).1 = Raise e.
Proof.
  intros Hl Hs. unfold serve. step_load Hl. rewrite run_emit.
  set (w1 := World _ _). specialize (Hs w1 eq_refl).
  unfold mbind at 1, M_bind at 1.
  destruct (sidebar df w1) as [[[]|e'] w2]; simpl in *; [done | by rewrite Hs].
Qed.

Lemma main_after_enrich (csv : frame) (xs : list (option string))
  (read : string -> option Timestamp) (p : page)
  (region : option string) (annee : Z * Z) :
  well_formed csv = true ->
  distinct (map Strip.strip (names csv)) = true ->
  getitem csv DATE = Ok (Object xs) ->
  to_datetime xs = Ok read ->
  let ts := map (fun o => o ≫= read) xs in
  let f1 := mkFrame (index csv) (relabel Strip.strip (columns csv)) in
  exists f2 f3 f4 d,
    with_column f1 DATE (Datetime ts) = Ok f2
    /\ with_column f2 ANNEE (IntNA (map (fmap year) ts)) = Ok f3
    /\ with_column f3 MOIS (IntNA (map (fmap month) ts)) = Ok f4
    /\ getitem f4 ANNEE = Ok (IntNA (map (fmap year) ts))
    /\ main csv p region annee start = serve 0 p region annee (World [f4] d).
Proof.
  intros Hwf Hd Hg Hread ts f1. unfold main. rewrite run_new. cbv beta.
  set (w0 := World (heap start ++ [csv]) (display start)).
  assert (Hl : heap w0 !! 0%nat = Some csv) by done.
  pose proof (validate_outcome _ _ _ Hl) as Hv.
  rewrite (getitem_has_date _ _ Hg) in Hv.
  rewrite (run_bind _ _ _ _ _ Hv). cbv beta.
  set (w1 := World (heap w0) _).
  assert (Hl1 : heap w1 !! 0%nat = Some csv) by done.
  destruct (enrich_steps w1 0 csv xs read Hl1 Hwf Hd Hg Hread)
    as (f2 & f3 & f4 & H2 & H3 & H4 & Hy & Hrun).
  rewrite (run_bind _ _ _ _ _ Hrun). cbv beta.
  by exists f2, f3, f4, (display w1).
Qed.

(** X5. A file whose timestamp column is converted (lines 31-35 return)
    but which has no column whose trimmed label is "Région" fails with
    KeyError on line 47, on every page, also on the pages that show no
    data. *)
Theorem main_needs_region (csv : frame) (xs : list (option string))
  (read : string -> option Timestamp) (p : page)
  (region : option string) (annee : Z * Z) :
  well_formed csv = true ->
  distinct (map Strip.strip (names csv)) = true ->
  getitem csv DATE = Ok (Object xs) ->
  to_datetime xs = Ok read ->
  existsb (String.eqb REGION) (map Strip.strip (names csv)) = false ->
  (main csv p region annee start).1 = Raise (KeyError REGION).
Proof.
  intros Hwf Hd Hg Hread Hr.
  destruct (main_after_enrich csv xs read p region annee Hwf Hd Hg Hread)
    as (f2 & f3 & f4 & d & H2 & H3 & H4 & _ & ->).
  assert (Hr4 : getitem f4 REGION = Raise (KeyError REGION)).
  { rewrite (enriched_other _ _ _ _ _ _ _ _ H2 H3 H4) by done.
    apply getitem_absent. by rewrite names_relabel. }
  apply (serve_sidebar_raises _ _ f4); [done|].
  intros w' Hw'. apply (sidebar_without_region _ _ f4); [by rewrite Hw' | done].
Qed.


End Steps.

(** ** Trimmed labels *)

Module StripFacts.
Import Strip.

Lemma drop_space_suffix (s s' : list ascii) :
  drop_space s = Some s' -> exists p, s = p ++ s' /\ p <> [].
Proof.
  destruct s as [|a [|b [|c s3]]]; simpl; try done.
  - destruct (space1 a); [|done]. intros [= <-]. by exists [a].
  - destruct (space1 a); [intros [= <-]; by exists [a]|].
    destruct (space2 a b); [|done]. intros [= <-]. by exists [a; b].
  - destruct (space1 a); [intros [= <-]; by exists [a]|].
    destruct (space2 a b); [intros [= <-]; by exists [a; b]|].
    destruct (space3 a b c); [|done]. intros [= <-]. by exists [a; b; c].
Qed.

Lemma drop_space_rev_suffix (s s' : list ascii) :
  drop_space_rev s = Some s' -> exists p, s = p ++ s' /\ p <> [].
Proof.
  destruct s as [|a [|b [|c s3]]]; simpl; try done.
  - destruct (space1 a); [|done]. intros [= <-]. by exists [a].
  - destruct (space1 a); [intros [= <-]; by exists [a]|].
    destruct (space2 b a); [|done]. intros [= <-]. by exists [a; b].
  - destruct (space1 a); [intros [= <-]; by exists [a]|].
    destruct (space2 b a); [intros [= <-]; by exists [a; b]|].
    destruct (space3 c b a); [|done]. intros [= <-]. by exists [a; b; c].
Qed.

Lemma drop_space_prefix (p q : list ascii) :
  drop_space (p ++ q) = None -> drop_space p = None.
Proof.
  destruct p as [|a [|b [|c p']]]; try done;
    destruct q as [|x [|y q']]; simpl;
    repeat (match goal with
            | |- context [if ?b then _ else _] => destruct b
            end; try done).
Qed.

Section Iterate.
Context (step : list ascii -> option (list ascii)).
Context (Hstep : forall s s', step s = Some s' -> exists p, s = p ++ s' /\ p <> []).

Lemma iterate_done (n : nat) (s : list ascii) :
  (length s <= n)%nat -> step (iterate step n s) = None.
Proof.
  revert s; induction n as [|n IH]; intros s Hn; simpl.
  - destruct (step s) as [s'|] eqn:E; [|done].
    destruct (Hstep _ _ E) as (p & -> & Hp). destruct p; [done|].
    simpl in Hn. lia.
  - destruct (step s) as [s'|] eqn:E; [|done].
    apply IH. destruct (Hstep _ _ E) as (p & -> & Hp).
    destruct p; [done|]. simpl in Hn. rewrite length_app in Hn. lia.
Qed.

Lemma iterate_suffix (n : nat) (s : list ascii) :
  exists p, s = p ++ iterate step n s.
Proof.
  revert s; induction n as [|n IH]; intros s; simpl; [by exists []|].
  destruct (step s) as [s'|] eqn:E; [|by exists []].
  destruct (Hstep _ _ E) as (p & -> & _). destruct (IH s') as [p' Hp'].
  exists (p ++ p'). by rewrite <- app_assoc, <- Hp'.
Qed.

Lemma iterate_same (n : nat) (s : list ascii) :
  step s = None -> iterate step n s = s.
Proof. intros E. destruct n; simpl; [done | by rewrite E]. Qed.
End Iterate.

Lemma lstrip_done (s : list ascii) : drop_space (lstrip s) = None.
Proof. apply (iterate_done _ drop_space_suffix). lia. Qed.

Lemma rstrip_done (s : list ascii) : drop_space_rev (rev (rstrip s)) = None.
Proof.
  unfold rstrip. rewrite rev_involutive.
  apply (iterate_done _ drop_space_rev_suffix). by rewrite length_rev.
Qed.

Lemma rstrip_prefix (s : list ascii) : exists q, s = rstrip s ++ q.
Proof.
  unfold rstrip.
  destruct (iterate_suffix _ drop_space_rev_suffix (length s) (rev s)) as [p Hp].
  exists (rev p). rewrite <- rev_app_distr, <- Hp. by rewrite rev_involutive.
Qed.

Lemma lstrip_same (s : list ascii) : drop_space s = None -> lstrip s = s.
Proof. apply iterate_same. Qed.

Lemma rstrip_same (s : list ascii) : drop_space_rev (rev s) = None -> rstrip s = s.
Proof.
  intros E. unfold rstrip. rewrite iterate_same by done. apply rev_involutive.
Qed.

Lemma bytes_strip (s : string) : bytes (strip s) = rstrip (lstrip (bytes s)).
Proof. unfold bytes, strip. apply list_ascii_of_string_of_list_ascii. Qed.

(** X7. A trimmed label (line 28) neither begins nor ends with a
    white-space character, and trimming it again changes nothing. *)
Theorem strip_trims (s : string) :
  drop_space (bytes (strip s)) = None
  /\ drop_space_rev (rev (bytes (strip s))) = None
  /\ strip (strip s) = strip s.
Proof.
  assert (H1 : drop_space (bytes (strip s)) = None).
  { rewrite bytes_strip. destruct (rstrip_prefix (lstrip (bytes s))) as [q Hq].
    apply (drop_space_prefix _ q). rewrite <- Hq. apply lstrip_done. }
  assert (H2 : drop_space_rev (rev (bytes (strip s))) = None).
  { rewrite bytes_strip. apply rstrip_done. }
  split; [done|]. split; [done|].
  unfold strip at 1. fold (bytes (strip s)).
  rewrite (lstrip_same _ H1), (rstrip_same _ H2).
  apply string_of_list_ascii_of_string.
Qed.

End StripFacts.

(** ** The winter months and the scenario *)

Lemma map_field (label : string) (p : cell -> bool) (rs : list row) (cs : list cell) :
  map (field label) rs = map Some cs ->
  map (fun r => match field label r with Some c => p c | None => false end) rs
  = map p cs.
Proof.
  revert cs; induction rs as [|r rs IH]; intros [|c cs] H; simpl in *; try done.
  injection H as E H. by rewrite E, (IH _ H).
Qed.

Lemma mask_and_map {A} (p q : A -> bool) (l : list A) :
  mask_and (map p l) (map q l) = map (fun a => p a && q a) l.
Proof. induction l as [|a l IH]; simpl; [done | by rewrite IH]. Qed.

Lemma month_isin_cells (ts : list (option Timestamp)) (months : list Z) :
  month_isin (Datetime ts) months
  = Ok (map (month_cell months) (cells (Datetime ts))).
Proof. simpl. by rewrite map_map. Qed.

Lemma repeat_map {A B} (g : A -> B) (b : B) (xs : list A) :
  (forall x, g x = b) -> repeat b (length xs) = map g xs.
Proof. intros H. induction xs; simpl; [done | by rewrite H, IHxs]. Qed.

Lemma label_isin_cells (c : column) (labels : list string) :
  label_isin c labels = map (label_cell labels) (cells c).
Proof.
  destruct c; simpl; rewrite ?map_map; try by apply repeat_map.
  apply map_ext. by intros [s|].
Qed.

Lemma month_isin_length (c : column) (months : list Z) (m : list bool) :
  month_isin c months = Ok m -> length m = col_length c.
Proof. destruct c; simpl; try done. intros [= <-]. by rewrite length_map. Qed.

(** X8. The winter selection (lines 132 and 160) keeps, in their order,
    exactly the rows that have a timestamp whose month is December, January
    or February (or, in general, one of the months asked for); a row
    without a timestamp is never kept. *)
Theorem select_months_rows (f : frame) (months : list Z)
  (ts : list (option Timestamp)) :
  well_formed f = true ->
  getitem f DATE = Ok (Datetime ts) ->
  exists g, select_months f months = Ok g
    /\ rows g = List.filter (row_in_months months) (rows f).
Proof.
  intros Hwf Hd. unfold select_months. rewrite Hd.
  cbv beta iota delta [mbind outcome_bind]. rewrite month_isin_cells.
  eexists; split; [reflexivity|].
  rewrite rows_bool_index; [|done|].
  - rewrite <- select_self. f_equal. symmetry.
    apply map_field. by apply field_column.
  - rewrite length_map, cells_length. by apply (getitem_length _ _ _ Hwf Hd).
Qed.

(** X9. The rows of the 2030 scenario (line 260) are, in their order,
    exactly the rows of January and February whose region is one of the
    listed regions. *)
Theorem scenario_rows_exact (f : frame) (top : list string)
  (ts : list (option Timestamp)) (rc : column) :
  well_formed f = true ->
  getitem f DATE = Ok (Datetime ts) ->
  getitem f REGION = Ok rc ->
  exists g, scenario_rows f top = Ok g
    /\ rows g = List.filter
                  (fun r => row_in_months [1; 2] r && row_in_regions top r)
                  (rows f).
Proof.
  intros Hwf Hd Hr. unfold scenario_rows. rewrite Hd.
  cbv beta iota delta [mbind outcome_bind].
  rewrite month_isin_cells, Hr, label_isin_cells.
  eexists; split; [reflexivity|].
  pose proof (getitem_length _ _ _ Hwf Hd) as L1.
  pose proof (getitem_length _ _ _ Hwf Hr) as L2.
  rewrite rows_bool_index; [|done|].
  - rewrite <- select_self. f_equal.
    rewrite <- (map_field DATE (month_cell [1; 2]) (rows f) _
                  (field_column _ _ _ Hwf Hd)).
    rewrite <- (map_field REGION (label_cell top) (rows f) _
                  (field_column _ _ _ Hwf Hr)).
    by rewrite mask_and_map.
  - rewrite mask_and_length, !length_map, !cells_length, L1, L2. lia.
Qed.

(** ** The critical situations *)

Lemma select_length_count {A} (m : list bool) (xs : list A) :
  length m = length xs -> length (select m xs) = count_true m.
Proof.
  unfold count_true.
  revert xs; induction m as [|b m IH]; intros [|x xs] H; simpl in *; try done.
  destruct b; simpl; rewrite IH; (done || lia).
Qed.

(** X10. The number of critical situations shown on line 139 is the number
    of rows of the frame drawn in the histogram of line 140. *)
Theorem negative_count_is_histogram (f : frame) (y : column) (neg : list bool) :
  well_formed f = true ->
  getitem f "delta" = Ok y ->
  series_negative y = Ok neg ->
  length (List.filter id neg) = length (rows (bool_index f neg)).
Proof.
  intros Hwf Hy Hn. rewrite rows_length; simpl.
  rewrite select_length_count; [done|].
  pose proof (getitem_length _ _ _ Hwf Hy) as L.
  unfold series_negative in Hn. destruct y; simpl in *; try done.
  injection Hn as <-. by rewrite length_map.
Qed.

(** X11. The contribution of a delta to the deficit scores (lines 145 and
    266) is a number, never NaN and never negative; it is positive for a
    negative delta and zero for every other one, NaN included. *)
Theorem deficit_not_negative (x : float) :
  F64.is_nan (deficit x) = false
  /\ (0 <=? deficit x)%float = true
  /\ (if (x <? 0)%float then (0 <? deficit x)%float = true
      else deficit x = 0%float).
Proof.
  unfold deficit. destruct (x <? 0)%float eqn:E; [|by repeat split].
  rewrite FloatAxioms.ltb_spec in E.
  unfold F64.is_nan.
  rewrite FloatAxioms.leb_spec, FloatAxioms.ltb_spec, FloatAxioms.opp_spec.
  change (Prim2SF 0) with (S754_zero false) in *.
  by destruct (Prim2SF x) as [[]|[]| |[] m e].
Qed.

(** ** One row per key *)

Section Keys.
Context {K : Type} (eqb leb : K -> K -> bool) (lt : K -> K -> Prop).
Context (eqb_eq : forall a b, eqb a b = true <-> a = b).
Context (leb_lt : forall a b, leb a b = true -> a <> b -> lt a b).
Context (gt_lt : forall a b, leb a b = false -> lt b a).
Context (lt_trans : forall a b c, lt a b -> lt b c -> lt a c).
Context (lt_irrefl : forall a, ~ lt a a).

Lemma insert_key_in (k x : K) (l : list K) :
  x ∈ insert_key eqb leb k l <-> x = k \/ x ∈ l.
Proof.
  induction l as [|y l IH]; simpl.
  - rewrite list_elem_of_singleton, elem_of_nil. tauto.
  - destruct (eqb k y) eqn:E.
    { apply eqb_eq in E as ->. rewrite elem_of_cons. tauto. }
    destruct (leb k y); rewrite !elem_of_cons, ?IH; tauto.
Qed.

Lemma insert_key_ascending (k : K) (l : list K) :
  StronglySorted lt l -> StronglySorted lt (insert_key eqb leb k l).
Proof.
  induction 1 as [|y l Hs IH Hy]; simpl; [repeat constructor|].
  destruct (eqb k y) eqn:E.
  { by apply SSorted_cons. }
  assert (Hne : k <> y).
  { intros Heq. apply eqb_eq in Heq. congruence. }
  destruct (leb k y) eqn:E'.
  - pose proof (leb_lt _ _ E' Hne) as Hlt.
    constructor; [by constructor|]. constructor; [done|].
    eapply Forall_impl; [exact Hy|]. intros z Hz. by eapply lt_trans.
  - constructor; [done|]. apply Forall_forall. intros z Hz.
    apply insert_key_in in Hz as [->|Hz]; [by apply gt_lt|].
    by rewrite Forall_forall in Hy; apply Hy.
Qed.

Lemma keys_ascending (ks : list K) : StronglySorted lt (distinct_sorted eqb leb ks).
Proof.
  induction ks as [|k ks IH]; simpl; [constructor | by apply insert_key_ascending].
Qed.

Lemma keys_in (x : K) (ks : list K) : x ∈ distinct_sorted eqb leb ks <-> x ∈ ks.
Proof.
  induction ks as [|k ks IH]; simpl; [done|].
  rewrite insert_key_in, elem_of_cons, IH. tauto.
Qed.

Lemma grouping_keys (ks : list (option K)) :
  let keys := map fst (grouping eqb leb ks) in
  StronglySorted lt keys /\ forall k, k ∈ keys <-> Some k ∈ ks.
Proof.
  unfold grouping. rewrite map_map; simpl. rewrite map_id. split.
  - apply keys_ascending.
  - intros k. rewrite keys_in, list_elem_of_omap.
    split; [by intros ([x|] & Hx & [= ->]) | intros H; by exists (Some k)].
Qed.

Lemma group_mask_lookup (k : K) (ks : list (option K)) (i : nat) :
  group_mask eqb k ks !! i = Some true <-> ks !! i = Some (Some k).
Proof.
  unfold group_mask. rewrite list_lookup_fmap.
  destruct (ks !! i) as [[x|]|]; simpl; try (split; congruence).
  split.
  - intros [= E]. apply eqb_eq in E. by subst.
  - intros [= ->]. f_equal. by apply eqb_eq.
Qed.
End Keys.

Lemma lex_leb_refl (a : list Z) : lex_leb a a = true.
Proof.
  induction a as [|x a IH]; simpl; [done|].
  rewrite Z.eqb_refl, IH. apply orb_true_r.
Qed.

Lemma lex_leb_total (a b : list Z) : lex_leb a b = false -> lex_leb b a = true.
Proof.
  revert b; induction a as [|x a IH]; intros [|y b]; simpl; try done.
  destruct (Z.ltb_spec x y), (Z.ltb_spec y x), (Z.eqb_spec x y), (Z.eqb_spec y x);
    simpl; try done; try lia.
  apply IH.
Qed.

Lemma lex_leb_trans (a b c : list Z) :
  length a = length b -> length b = length c ->
  lex_leb a b = true -> lex_leb b c = true -> lex_leb a c = true.
Proof.
  revert b c; induction a as [|x a IH]; intros [|y b] [|z c] L1 L2; simpl in *;
    try done.
  destruct (Z.ltb_spec x y), (Z.ltb_spec y z), (Z.ltb_spec x z),
    (Z.eqb_spec x y), (Z.eqb_spec y z), (Z.eqb_spec x z);
    simpl; try done; try lia.
  apply IH; lia.
Qed.

Lemma lex_leb_antisym (a b : list Z) :
  length a = length b -> lex_leb a b = true -> lex_leb b a = true -> a = b.
Proof.
  revert b; induction a as [|x a IH]; intros [|y b] L; simpl in *; try done.
  destruct (Z.ltb_spec x y), (Z.ltb_spec y x), (Z.eqb_spec x y), (Z.eqb_spec y x);
    simpl; try done; try lia.
  intros H1 H2. subst. f_equal. apply IH; [lia | done | done].
Qed.

Lemma ts_fields_inj (t u : Timestamp) : ts_fields t = ts_fields u -> t = u.
Proof. destruct t, u; simpl. by intros [= -> -> -> -> -> ->]. Qed.

Lemma ts_eqb_eq (t u : Timestamp) : ts_eqb t u = true <-> t = u.
Proof.
  unfold ts_eqb. rewrite bool_decide_eq_true.
  split; [apply ts_fields_inj | by intros ->].
Qed.

Lemma ts_leb_lt (t u : Timestamp) : ts_leb t u = true -> t <> u -> ts_lt t u.
Proof. by split. Qed.

Lemma ts_gt_lt (t u : Timestamp) : ts_leb t u = false -> ts_lt u t.
Proof.
  intros H. split; [by apply lex_leb_total|].
  intros ->. unfold ts_leb in H. by rewrite lex_leb_refl in H.
Qed.

Lemma ts_lt_trans (t u v : Timestamp) : ts_lt t u -> ts_lt u v -> ts_lt t v.
Proof.
  intros [H1 N1] [H2 N2]. split.
  - by apply (lex_leb_trans _ (ts_fields u)).
  - intros ->. destruct N1. apply ts_fields_inj.
    by apply lex_leb_antisym.
Qed.

Lemma ts_lt_irrefl (t : Timestamp) : ~ ts_lt t t.
Proof. by intros [_ H]. Qed.

Lemma Z_leb_lt (a b : Z) : (a <=? b) = true -> a <> b -> a < b.
Proof. rewrite Z.leb_le. lia. Qed.

Lemma Z_gt_lt (a b : Z) : (a <=? b) = false -> b < a.
Proof. rewrite Z.leb_gt. lia. Qed.

Section Aggregates.
Context {lib : Library}.

(** X12. The national aggregation (lines 118 and 163) has one row per
    timestamp that occurs in the data set, in ascending order; the sums
    of a row are taken over exactly the rows of the data set that carry
    its timestamp, so a row without timestamp enters no sum. *)
Theorem national_one_row_per_timestamp (f : frame)
  (ts : list (option Timestamp)) (ps cs : list float) :
  getitem f DATE = Ok (Datetime ts) ->
  getitem f PROD = Ok (Float64 ps) ->
  getitem f CONSO = Ok (Float64 cs) ->
  exists n keys,
    national f = Ok n
    /\ index n = range_index (length keys)
    /\ getitem n DATE = Ok (Datetime (map Some keys))
    /\ StronglySorted ts_lt keys
    /\ (forall k, k ∈ keys <-> Some k ∈ ts)
    /\ getitem n CONSO
       = Ok (Float64 (map (fun k => group_sum
                                      (select (map (fun o => bool_decide (o = Some k)) ts) cs))
                          keys))
    /\ getitem n PROD
       = Ok (Float64 (map (fun k => group_sum
                                      (select (map (fun o => bool_decide (o = Some k)) ts) ps))
                          keys)).
Proof.
  intros Hd Hp Hc.
  pose proof (national_groups f ts ps cs Hd Hp Hc) as Hn. cbv zeta in Hn.
  destruct (grouping_keys ts_eqb ts_leb ts_lt ts_eqb_eq ts_leb_lt ts_gt_lt
              ts_lt_trans ts ) as [Hs He].
  set (G := grouping ts_eqb ts_leb ts) in *.
  assert (Hmask : forall k,
             group_mask ts_eqb k ts = map (fun o => bool_decide (o = Some k)) ts).
  { intros k. unfold group_mask. apply map_ext. intros [t|]; [|done].
    destruct (ts_eqb t k) eqn:E.
    - apply ts_eqb_eq in E as ->. by rewrite bool_decide_eq_true_2.
    - rewrite bool_decide_eq_false_2; [done|].
      intros [= ->]. by rewrite (proj2 (ts_eqb_eq k k) eq_refl) in E. }
  assert (Hsum : forall xs,
             map (fun g => group_sum (select (snd g) xs)) G
             = map (fun k => group_sum
                               (select (map (fun o => bool_decide (o = Some k)) ts) xs))
                   (map fst G)).
  { intros xs. subst G. unfold grouping. rewrite !map_map; simpl.
    apply map_ext. intros k. by rewrite Hmask. }
  eexists _, (map fst G). split; [exact Hn|]. simpl.
  split; [by rewrite !length_map|].
  split; [unfold getitem; simpl; by rewrite map_map|].
  split; [done|]. split; [done|].
  split; unfold getitem; simpl; by rewrite Hsum.
Qed.

(** X13. The yearly mean of the pumping (line 85) has one row per year
    that occurs in the filtered rows, in ascending order; the mean of a
    row is taken over exactly the rows of that year, and a row without a
    year enters no mean. *)
Theorem yearly_one_row_per_year (f : frame) (ys : list (option Z))
  (xs : list float) :
  getitem f ANNEE = Ok (IntNA ys) ->
  getitem f "Pompage (MW)" = Ok (Float64 xs) ->
  exists g years,
    groupby_reset group_mean f ANNEE ["Pompage (MW)"] = Ok g
    /\ index g = range_index (length years)
    /\ getitem g ANNEE = Ok (IntNA (map Some years))
    /\ StronglySorted Z.lt years
    /\ (forall y, y ∈ years <-> Some y ∈ ys)
    /\ getitem g "Pompage (MW)"
       = Ok (Float64 (map (fun y => group_mean
                                      (select (map (fun o => bool_decide (o = Some y)) ys) xs))
                          years)).
Proof.
  intros Hy Hx. unfold groupby_reset. rewrite Hy; simpl. rewrite Hx; simpl.
  destruct (grouping_keys Z.eqb Z.leb Z.lt Z.eqb_eq Z_leb_lt Z_gt_lt
              Z.lt_trans ys) as [Hs He].
  set (G := grouping Z.eqb Z.leb ys) in *.
  assert (Hmask : forall k,
             group_mask Z.eqb k ys = map (fun o => bool_decide (o = Some k)) ys).
  { intros k. unfold group_mask. apply map_ext. intros [t|]; [|done].
    destruct (Z.eqb_spec t k) as [->|Hne].
    - by rewrite bool_decide_eq_true_2.
    - rewrite bool_decide_eq_false_2; [done | congruence]. }
  eexists _, (map fst G). split; [reflexivity|]. simpl.
  split; [by rewrite !length_map|].
  split; [unfold getitem; simpl; by rewrite map_map|].
  split; [done|]. split; [done|].
  unfold getitem; simpl. unfold reduce_groups. rewrite !map_map.
  do 2 f_equal. subst G. unfold grouping. rewrite !map_map; simpl.
  apply map_ext. intros k. by rewrite Hmask.
Qed.

Lemma precedes_ascending (a b : string * float) :
  precedes a b = true -> ascending a b = true.
Proof.
  unfold precedes, ascending.
  destruct (F64.is_nan (snd a)), (F64.is_nan (snd b)); simpl; try done.
  intros [H | [H _]%andb_true_iff]%orb_true_iff.
  - by apply F64Facts.ltb_leb.
  - by apply F64Facts.eqb_leb.
Qed.

Lemma strongly_sorted_weaken {A} (R S : A -> A -> Prop) (l : list A) :
  (forall a b, R a b -> S a b) -> StronglySorted R l -> StronglySorted S l.
Proof.
  intros HRS. induction 1 as [|x l _ IH Hx]; constructor; [done|].
  eapply Forall_impl; [exact Hx|]. intros y. apply HRS.
Qed.

(** X14. The series drawn on lines 170-171 and 179-180 (mean per region,
    sorted) has one entry per region of the frame, in ascending order of
    the mean, the regions without a mean last. *)
Theorem region_series_sorted (f : frame) (col : string)
  (ks : list (option string)) (xs : list float) :
  getitem f REGION = Ok (Object ks) ->
  getitem f col = Ok (Float64 xs) ->
  exists s,
    groupby_region group_mean f col = Ok s
    /\ sort_values s ≡ₚ s
    /\ NoDup (map fst (sort_values s))
    /\ (forall r, r ∈ map fst (sort_values s) <-> Some r ∈ ks)
    /\ StronglySorted (fun a b => ascending a b = true) (sort_values s).
Proof.
  intros Hr Hx. unfold groupby_region. rewrite Hr; simpl. rewrite Hx; simpl.
  eexists; split; [reflexivity|].
  unfold grouping. rewrite map_map; simpl.
  set (R := distinct_sorted String.eqb String.leb (omap id ks)).
  set (s := map _ R).
  assert (HR : StronglySorted label_lt R) by apply distinct_sorted_sorted.
  assert (Hfst : map fst s = R).
  { subst s. rewrite map_map; simpl. apply map_id. }
  assert (P : map fst (sort_values s) ≡ₚ R).
  { rewrite <- Hfst. apply fmap_Permutation, sort_values_perm. }
  split; [apply sort_values_perm|].
  split; [rewrite P; by apply sorted_NoDup|].
  split.
  - intros r. rewrite P. subst R. rewrite distinct_sorted_elem, list_elem_of_omap.
    split; [by intros ([x|] & Hx1 & [= ->]) | intros H; by exists (Some r)].
  - apply (strongly_sorted_weaken (fun a b => precedes a b = true));
      [apply precedes_ascending|].
    apply sort_values_sorted. subst s.
    clear -HR. induction HR as [|x l Hs IH Hxl]; simpl; constructor; [done|].
    apply Forall_map. eapply Forall_impl; [exact Hxl|]. by intros y Hy.
Qed.

End Aggregates.

(** ** The interpretation on the page Synthèse *)

Lemma grows_bind {A B} (m : M A) (k : A -> M B) :
  grows m -> (forall a, grows (k a)) -> grows (m ≫= k).
Proof.
  intros Hm Hk w. destruct (Hm w) as [e1 E1]. unfold mbind, M_bind.
  destruct (m w) as [[a|e] w']; simpl in *; [|by exists e1].
  destruct (Hk a w') as [e2 E2]. exists (e1 ++ e2).
  by rewrite E2, E1, app_assoc.
Qed.

Lemma grows_ret {A} (a : A) : grows (mret a : M A).
Proof. intros w. exists []. by rewrite app_nil_r. Qed.

Lemma grows_lift {A} (x : outcome A) : grows (lift x).
Proof. intros w. exists []. by rewrite app_nil_r. Qed.

Lemma grows_emit (name : string) (data : list payload) : grows (emit name data).
Proof. intros w. by exists [Event name data]. Qed.

Lemma grows_load (l : loc) : grows (load l).
Proof.
  intros w. exists []. unfold load. rewrite app_nil_r. by destruct (heap w !! l).
Qed.

Lemma grows_new (f : frame) : grows (new f).
Proof. intros w. exists []. by rewrite app_nil_r. Qed.

Lemma grows_store (l : loc) (f : frame) : grows (store l f).
Proof. intros w. exists []. by rewrite app_nil_r. Qed.

Lemma grows_rename (l : loc) (labels : list string) : grows (rename l labels).
Proof.
  unfold rename. apply grows_bind; [apply grows_load | intros f].
  apply grows_bind; [apply grows_lift | intros f']. apply grows_store.
Qed.

Lemma grows_choropleth (mode : string) (f : frame) : grows (choropleth mode f).
Proof.
  unfold choropleth. destruct (existsb _ _); [apply grows_emit | apply grows_lift].
Qed.

Ltac grows_run :=
  repeat first
    [ apply grows_emit | apply grows_choropleth | apply grows_load | apply grows_lift | apply grows_new
    | apply grows_rename | apply grows_ret
    | apply grows_bind; [|intros ?] ].

Section Synthese.
Context {lib : Library}.

(** X15. When the mean autonomy of the filtered rows is undefined (NaN),
    as it is when the selection has no row, the page Synthèse shows,
    after its header, the three metrics and then the message of a good
    autonomy (the branch of line 202): neither comparison of lines 197
    and 199 holds for NaN. *)
Theorem synthese_undefined_autonomy (w : world) (df df_filtered : loc)
  (f : frame) (xs ys : list float) (dep : float) :
  heap w !! df_filtered = Some f ->
  getitem f "Autonomie" = Ok (Float64 xs) ->
  getitem f DELTA_PC = Ok (Float64 ys) ->
  dependance f = Ok dep ->
  F64.is_nan (round_to (nanmean xs * 100)%float 1) = true ->
  exists header rest,
    display (page_synthese df df_filtered w).2
    = display w
      ++ [header;
          Event "metric" [Number (round_to (nanmean xs * 100)%float 1)];
          Event "metric" [Number (round_to (nanmean ys) 0)];
          Event "metric" [Number (round_to (dep * 100)%float 1)];
          Event "markdown" []; Event "subheader" [];
          Event "success" []]
      ++ rest.
Proof.
  intros Hl Ha Hd Hdep Hnan.
  assert (H30 : (round_to (nanmean xs * 100) 1 <? 30)%float = false).
  { by rewrite F64Facts.ltb_cmp, F64Facts.cmp_nan_l. }
  assert (H70 : (round_to (nanmean xs * 100) 1 <? 70)%float = false).
  { by rewrite F64Facts.ltb_cmp, F64Facts.cmp_nan_l. }
  unfold page_synthese. rewrite run_emit.
  step_load_in Hl. step_lift Ha.
  change (as_float (Float64 xs)) with (Ok xs). rewrite run_lift_ok. cbv beta zeta.
  step_load_in Hl. step_lift Hd.
  change (as_float (Float64 ys)) with (Ok ys). rewrite run_lift_ok. cbv beta zeta.
  rewrite !run_emit. step_load_in Hl. step_lift Hdep.
  rewrite !run_emit. rewrite H30, H70. rewrite run_emit.
  match goal with
  | |- exists header rest, display (?m ?w').2 = _ =>
      assert (G : grows m) by grows_run;
      destruct (G w') as [rest E]; exists (Event "header" []), rest; rewrite E
  end.
  simpl. by rewrite <- !app_assoc.
Qed.

Lemma raises_bind {A B} (m : M A) (k : A -> M B) :
  (forall a, raises (k a)) -> raises (m ≫= k).
Proof.
  intros Hk w. unfold mbind, M_bind.
  destruct (m w) as [[a|e] w']; [apply Hk | by exists e].
Qed.

Lemma raises_geo (f : frame) : raises (choropleth "geo" f).
Proof. intros w. by exists ValueError. Qed.

(** X19. On the page Synthèse no run returns, whatever the file and the
    selection: a run that gets as far as the map of line 209 asks plotly
    for the location mode "geo", which plotly does not know, and the
    figure raises before it is drawn. *)
Theorem synthese_never_returns (csv : frame) (region : option string)
  (annee : Z * Z) :
  exists e, (main csv Synthese region annee start).1 = Raise e.
Proof.
  apply (raises_bind (new csv)); intros df.
  unfold serve, render, page_synthese. cbv zeta.
  repeat (apply raises_bind; intros ?).
  apply raises_geo.
Qed.

End Synthese.

(** ** Pages that ignore the selection, and the renewable production *)

Section Pages.
Context {lib : Library}.

Lemma blind_focus_hiver (lf df : loc) :
  other_than lf df -> blind lf (page_focus_hiver df) any.
Proof. intros Hdf. unfold page_focus_hiver. blind_run. Qed.

Lemma blind_focus_enr (lf df : loc) :
  other_than lf df -> blind lf (page_focus_enr df) any.
Proof. intros Hdf. unfold page_focus_enr. blind_run. Qed.

Lemma blind_accueil (lf : loc) : blind lf page_accueil any.
Proof. unfold page_accueil. blind_run. Qed.

Lemma blind_conclusion (lf : loc) : blind lf page_conclusion any.
Proof. unfold page_conclusion. blind_run. Qed.

(** X16. The pages Accueil, Focus Hiver, Focus ENR and Conclusion ignore
    the selected region and years as well: two runs on the same file that
    differ only in the selection return the same result and show the same
    display. *)
Theorem selection_ignored (csv : frame) (p : page)
  (r1 r2 : option string) (a1 a2 : Z * Z) :
  p = Accueil \/ p = FocusHiver \/ p = FocusENR \/ p = Conclusion ->
  (main csv p r1 a1 start).1 = (main csv p r2 a2 start).1
  /\ display (main csv p r1 a1 start).2 = display (main csv p r2 a2 start).2.
Proof.
  intros Hp. unfold main.
  apply (same_view_bind (new csv)); intros df w.
  apply (same_view_bind (validate df)); intros _ w1.
  apply (same_view_bind (enrich df)); intros _ w2.
  unfold serve.
  apply same_view_load; intros f0 _.
  apply same_view_bind; intros _ w3.
  apply same_view_bind; intros _ w4.
  apply same_view_load; intros f Hf.
  destruct (filter_rows_outcome f r1 r2 a1 a2)
    as [(g1 & g2 & E1 & E2) | (e & E1 & E2)]; rewrite E1, E2;
    [|by rewrite !run_lift_raise].
  rewrite !run_lift_ok, !run_new. cbv beta.
  set (lf := length (heap w4)).
  assert (Hdf : other_than lf df).
  { unfold other_than, lf. apply lookup_lt_Some in Hf. lia. }
  assert (Hw : alike lf (World (heap w4 ++ [g1]) (display w4))
                 (World (heap w4 ++ [g2]) (display w4))).
  { unfold alike, lf; simpl. rewrite !length_app; simpl.
    split; [done|]. split; [done|]. split; [lia|].
    intros l Hl. rewrite !lookup_app.
    destruct (heap w4 !! l) eqn:E; [done|].
    apply lookup_ge_None in E.
    by rewrite !lookup_ge_None_2 by (simpl; lia). }
  destruct Hp as [-> | [-> | [-> | ->]]]; simpl.
  - destruct (blind_accueil lf _ _ Hw) as (E & (Hd & _) & _). by split.
  - destruct (blind_focus_hiver lf df Hdf _ _ Hw) as (E & (Hd & _) & _). by split.
  - destruct (blind_focus_enr lf df Hdf _ _ Hw) as (E & (Hd & _) & _). by split.
  - destruct (blind_conclusion lf _ _ Hw) as (E & (Hd & _) & _). by split.
Qed.

Lemma traverse_floats (f : frame) (labels : list string) (cols : list (list float)) :
  Forall2 (fun label xs => getitem f label = Ok (Float64 xs)) labels cols ->
  traverse (fun label => c ← getitem f label; as_float c) labels = Ok cols.
Proof.
  induction 1 as [|label xs labels cols H _ IH]; simpl; [done|].
  by rewrite H, IH.
Qed.

(** X17. The renewable production of a row (line 178) is the row sum of
    its solar, wind, hydraulic and bioenergy cells, in this order, and
    every row of the frame has one. *)
Theorem prod_enr_rows (f : frame) (so eo hy bi : list float) :
  well_formed f = true ->
  getitem f "Solaire (MW)" = Ok (Float64 so) ->
  getitem f "Eolien (MW)" = Ok (Float64 eo) ->
  getitem f "Hydraulique (MW)" = Ok (Float64 hy) ->
  getitem f "Bioénergies (MW)" = Ok (Float64 bi) ->
  exists ds,
    sum_rows f ENR = Ok (Float64 ds)
    /\ length ds = length (index f)
    /\ forall i a b c d,
         so !! i = Some a -> eo !! i = Some b ->
         hy !! i = Some c -> bi !! i = Some d ->
         ds !! i = Some (row_sum [a; b; c; d]).
Proof.
  intros Hwf H1 H2 H3 H4. unfold sum_rows.
  rewrite (traverse_floats f ENR [so; eo; hy; bi]).
  2:{ unfold ENR. repeat constructor; done. }
  cbv beta iota delta [mbind outcome_bind].
  eexists; split; [reflexivity|]. split.
  - by rewrite length_map, length_seq.
  - intros i a b c d Ha Hb Hc Hd.
    rewrite list_lookup_fmap.
    assert (Hi : (i < length (index f))%nat).
    { rewrite <- (getitem_length _ _ _ Hwf H1). simpl.
      by apply lookup_lt_Some in Ha. }
    rewrite lookup_seq_lt by done. simpl. by rewrite Ha, Hb, Hc, Hd.
Qed.

End Pages.

(** ** A run that reaches the page Exploration *)

Section Complete.
Context {lib : Library}.

(** The side bar reads the data set and shows widgets: the frames stay as
    they are, whether it returns or raises. *)
Lemma sidebar_heap (df : loc) (w : world) : heap (sidebar df w).2 = heap w.
Proof.
  unfold sidebar. rewrite !run_emit. unfold mbind at 1, M_bind at 1, load.
  simpl. destruct (heap w !! df) as [f|]; [|done]. simpl.
  destruct (getitem f REGION) as [r|e]; [|done]. rewrite run_lift_ok; cbv beta.
  destruct (regions_of r) as [rs|e]; [|done]. rewrite run_lift_ok; cbv beta.
  rewrite run_emit. unfold mbind at 1, M_bind at 1. simpl.
  destruct (heap w !! df) as [f'|]; [|done]. simpl.
  destruct (getitem f' ANNEE) as [y|e]; [|done]. rewrite run_lift_ok; cbv beta.
  by destruct (year_bounds y) as [b|e].
Qed.

(** X18. Whenever a run on the page Exploration returns, the table shown
    last and the table offered for download are one and the same frame:
    the filter, for the selected region and years, of the data set as the
    enrichment left it; these two frames are all the run has created. *)
Theorem exploration_shows_filter (csv : frame)
  (region : option string) (annee : Z * Z) :
  distinct (map Strip.strip (names csv)) = true ->
  (main csv Exploration region annee start).1 = Ok tt ->
  exists f' g shown d,
    enrich 0 (World [csv] shown) = (Ok tt, World [f'] shown)
    /\ filter_rows f' region annee = Ok g
    /\ (main csv Exploration region annee start).2
       = World [f'; g]
           (d ++ [Event "dataframe" [Table g];
                  Event "download_button" [Table g]]).
Proof.
  intros Hd. unfold main. rewrite run_new. cbv beta.
  set (w0 := World (heap start ++ [csv]) (display start)).
  assert (Hl : heap w0 !! 0%nat = Some csv) by done.
  pose proof (validate_outcome _ _ _ Hl) as Hv.
  destruct (has_date csv);
    [|by rewrite (run_bind_raise _ _ _ _ _ Hv)].
  rewrite (run_bind _ _ _ _ _ Hv). cbv beta.
  set (w1 := World (heap w0) _).
  assert (Hl1 : heap w1 !! 0%nat = Some csv) by done.
  destruct (enrich 0 w1) as [[[]|e] w2] eqn:He;
    [|by rewrite (run_bind_raise _ _ _ _ _ He)].
  rewrite (run_bind _ _ _ _ _ He). cbv beta.
  destruct (enrich_returns w1 0 csv Hl1 Hd)
    as (c & y & m & f2 & f3 & f4 & _ & _ & _ & Hrun); [by rewrite He|].
  rewrite He in Hrun. injection Hrun as ->.
  unfold serve.
  set (w2 := World (<[0%nat := f4]> (heap w1)) (display w1)).
  assert (Hl2 : heap w2 !! 0%nat = Some f4) by done.
  step_load Hl2. rewrite run_emit.
  set (w3 := World (heap w2) _).
  pose proof (sidebar_heap 0 w3) as Hs.
  destruct (sidebar 0 w3) as [[[]|e] w4] eqn:Es;
    [|by rewrite (run_bind_raise _ _ _ _ _ Es)].
  rewrite (run_bind _ _ _ _ _ Es). cbv beta. simpl in Hs.
  assert (Hl4 : heap w4 !! 0%nat = Some f4) by by rewrite Hs.
  step_load Hl4.
  destruct (filter_rows f4 region annee) as [g|e] eqn:Ef;
    [|by rewrite run_lift_raise].
  rewrite run_lift_ok, run_new. cbv beta. intros _.
  exists f4, g, (display w1), (display w4 ++ [Event "header" []]
    ++ [Event "write" [Choice region; Integer annee.1; Integer annee.2]]).
  split; [exact He|]. split; [done|].
  destruct w4 as [h4 d4]. simpl in Hs. subst h4. simpl.
  by rewrite <- !app_assoc.
Qed.

End Complete.

(** ** The properties on the sample data set *)

#[local] Existing Instance Reference.library.

(** The delta of the first row of the sample (950 - 1000) and of its three
    timestamps. *)
Lemma delta_is_production_minus_consumption_witness :
  let w := World [Sample.enriched] [] in
  (heap w !! 0%nat = Some Sample.enriched
   /\ well_formed Sample.enriched = true
   /\ distinct (names Sample.enriched) = true)
  /\ (exists f' ds,
        add_delta 0 w = (Ok tt, World [f'] [])
        /\ getitem f' "delta" = Ok (Float64 ds)
        /\ ds !! 0%nat = Some (950 - 1000)%float)
  /\ (exists n, national Sample.enriched = Ok n
        /\ delta_of n = Ok (Float64 [50 - 0; 950 + 1200 - (1000 + 800);
                                     400 + 900 - (700 + 600)]%float)).
Proof.
  intros w. split; [by repeat split|].
  destruct (delta_is_production_minus_consumption w 0 Sample.enriched
              [Some (mkTs 2019 1 15 12 0 0); Some (mkTs 2019 1 15 12 0 0);
               Some (mkTs 2019 7 1 12 0 0); Some (mkTs 2019 7 1 12 0 0);
               Some (mkTs 2016 2 1 0 0 0); None]
              [950; 1200; 400; 900; 50; 100]%float
              [1000; 800; 700; 600; 0; 900]%float)
    as [(f' & ds & Hrun & Hg & _ & _ & Hrow) (n & ds' & Hn & Hd & _ & Hsum)];
    try reflexivity.
  split.
  - exists f', ds. repeat split; [exact Hrun | exact Hg |].
    by apply (Hrow 0%nat).
  - exists n. split; [exact Hn|]. rewrite Hd, Hsum. reflexivity.
Defined.

(** The rows of Bretagne from 2018 to 2023. *)
Lemma filter_rows_exact_witness :
  (well_formed Sample.enriched = true
   /\ getitem Sample.enriched REGION
      = Ok (Object [Some "Bretagne"; Some "Normandie"; Some "Bretagne";
                    Some "Normandie"; Some "Occitanie"; Some "Bretagne"])
   /\ getitem Sample.enriched ANNEE
      = Ok (IntNA [Some 2019; Some 2019; Some 2019; Some 2019; Some 2016; None]))
  /\ exists g, filter_rows Sample.enriched (Some "Bretagne") (2018, 2023) = Ok g
       /\ rows g = List.filter (row_matches (Some "Bretagne") (2018, 2023))
                     (rows Sample.enriched)
       /\ sublist (rows g) (rows Sample.enriched).
Proof.
  split; [by repeat split|].
  eapply filter_rows_exact; reflexivity.
Defined.

(** Rows 0 and 2 are selected, and selected again. *)
Lemma filter_rows_idempotent_witness :
  let g := bool_index Sample.enriched [true; false; true; false; false; false] in
  (well_formed Sample.enriched = true
   /\ filter_rows Sample.enriched (Some "Bretagne") (2018, 2023) = Ok g)
  /\ sublist (rows g) (rows Sample.enriched)
  /\ filter_rows g (Some "Bretagne") (2018, 2023) = Ok g.
Proof.
  intros g. split; [by split|].
  by apply (filter_rows_idempotent Sample.enriched g (Some "Bretagne") (2018, 2023)).
Defined.

(** The years 2023 to 2018 select no row. *)
Lemma filter_rows_unvalidated_witness :
  (getitem Sample.enriched REGION
   = Ok (Object [Some "Bretagne"; Some "Normandie"; Some "Bretagne";
                 Some "Normandie"; Some "Occitanie"; Some "Bretagne"])
   /\ getitem Sample.enriched ANNEE
      = Ok (IntNA [Some 2019; Some 2019; Some 2019; Some 2019; Some 2016; None])
   /\ 2018 < 2023)
  /\ exists g, filter_rows Sample.enriched (Some "Bretagne") (2023, 2018) = Ok g
       /\ names g = names Sample.enriched
       /\ index g = []
       /\ Forall (fun p => col_length (snd p) = 0%nat) (columns g).
Proof.
  split; [by repeat split|].
  eapply filter_rows_unvalidated; [reflexivity | reflexivity | right; simpl; lia].
Defined.

(** C7: a region that no row carries, and an interval whose ends are
    swapped, are accepted and give an empty frame; nothing is raised. *)
Lemma filter_rows_accepts_any_selection :
  let empty := bool_index Sample.enriched (repeat false 6) in
  regions_of (Object [Some "Bretagne"; Some "Normandie"; Some "Bretagne";
                      Some "Normandie"; Some "Occitanie"; Some "Bretagne"])
  = Ok ["Bretagne"; "Normandie"; "Occitanie"]
  /\ index empty = []
  /\ filter_rows Sample.enriched (Some "Atlantide") (2018, 2023) = Ok empty
  /\ filter_rows Sample.enriched (Some "Bretagne") (2023, 2018) = Ok empty.
Proof. by repeat split. Qed.



(** C5: the rows of Occitanie in 2016 have a summed consumption of zero and
    summed exchanges of 25 MW; the quotient is the positive infinity, which
    is not NaN. *)
Lemma dependance_infinite :
  let g := bool_index Sample.enriched [false; false; false; false; true; false] in
  filter_rows Sample.enriched (Some "Occitanie") (2016, 2016) = Ok g
  /\ getitem g CONSO = Ok (Float64 [0%float])
  /\ F64.is_zero (nansum [0%float]) = true
  /\ dependance g = Ok infinity
  /\ F64.is_nan infinity = false.
Proof. by repeat split. Qed.

(** The same rows: the quotient is not zero, and infinite. *)
Lemma dependance_zero_consumption_witness :
  let g := bool_index Sample.enriched [false; false; false; false; true; false] in
  (getitem g ECH = Ok (Float64 [25%float])
   /\ getitem g CONSO = Ok (Float64 [0%float])
   /\ F64.is_zero (nansum [0%float]) = true)
  /\ exists q, dependance g = Ok q
       /\ F64.is_zero q = false
       /\ F64.is_inf q = true.
Proof.
  intros g. split; [by repeat split|].
  destruct (dependance_zero_consumption g [25%float] [0%float])
    as (q & Hq & Hz & Hc); try reflexivity.
  exists q. split; [exact Hq|]. split; [exact Hz | exact Hc].
Defined.

(** The sample has three regions: all three are listed, by mean delta. *)
Lemma top_risque_sorted_witness :
  (getitem Sample.enriched REGION
   = Ok (Object [Some "Bretagne"; Some "Normandie"; Some "Bretagne";
                 Some "Normandie"; Some "Occitanie"; Some "Bretagne"])
   /\ getitem Sample.enriched DELTA_PC
      = Ok (Float64 [-50; 400; -300; 300; 50; -800]%float))
  /\ top_risque Sample.enriched = Ok ["Bretagne"; "Occitanie"; "Normandie"]
  /\ exists top, top_risque Sample.enriched = Ok top /\ length top = 3%nat
       /\ NoDup top.
Proof.
  split; [by repeat split|]. split; [reflexivity|].
  destruct (top_risque_sorted Sample.enriched
              [Some "Bretagne"; Some "Normandie"; Some "Bretagne";
               Some "Normandie"; Some "Occitanie"; Some "Bretagne"]%string
              [-50; 400; -300; 300; 50; -800]%float)
    as (top & Ht & Hlen & Hnd & _); try reflexivity.
  exists top. split; [exact Ht|]. split; [|exact Hnd].
  injection Ht as <-. reflexivity.
Defined.

(** The page that adds the delta column leaves the data set as it was. *)
Lemma serve_keeps_dataset_witness :
  let w := World [Sample.enriched] [] in
  heap w !! 0%nat = Some Sample.enriched
  /\ heap (serve 0 Visualisations (Some "Bretagne") (2018, 2023) w).2 !! 0%nat
     = Some Sample.enriched
  /\ exists ext,
       heap (serve 0 Visualisations (Some "Bretagne") (2018, 2023) w).2
       = heap w ++ ext.
Proof.
  intros w. split; [reflexivity|].
  by apply (serve_keeps_dataset w 0 Sample.enriched Visualisations).
Defined.

(** Two selections, one display. *)
Lemma filter_context_irrelevant_witness :
  (Scenario2030 = Scenario2030 \/ Scenario2030 = RisqueNational)
  /\ (main Sample.csv Scenario2030 (Some "Bretagne") (2018, 2023) start).1
     = (main Sample.csv Scenario2030 (Some "Occitanie") (2016, 2016) start).1
  /\ display (main Sample.csv Scenario2030 (Some "Bretagne") (2018, 2023) start).2
     = display (main Sample.csv Scenario2030 (Some "Occitanie") (2016, 2016) start).2.
Proof.
  split; [by left|].
  apply (filter_context_irrelevant Sample.csv Scenario2030); by left.
Defined.

(** A run that reaches the page: the five most deficitary regions are
    shown, and the simulated deficit is 60 MW. *)
Example scenario_2030_run :
  (main Sample.csv Scenario2030 (Some "Bretagne") (2018, 2023) start).1 = Ok tt
  /\ Event "write" [Labels ["Bretagne"; "Occitanie"; "Normandie"]]
     ∈ display (main Sample.csv Scenario2030 (Some "Bretagne") (2018, 2023) start).2
  /\ Event "metric" [Integer 60]
     ∈ display (main Sample.csv Scenario2030 (Some "Bretagne") (2018, 2023) start).2.
Proof.
  split; [reflexivity|]. split; apply list_elem_of_In; vm_compute; tauto.
Qed.

(** A row with a consumption of 1000 MW and a production of 950 MW has a
    delta of -50 MW and adds 50 MW to the deficit score. *)
Example deficit_of_one_row :
  (950 - 1000 = -50)%float /\ deficit (950 - 1000) = 50%float.
Proof. by split. Qed.

(** ** The further properties on the sample data set *)

(** The padded file has no label "Date - Heure": the run stops. *)
Lemma main_stops_without_date_witness :
  has_date Sample.padded = false
  /\ main Sample.padded Exploration (Some "Bretagne") (2018, 2023) start
     = (Raise StopException,
        World [Sample.padded]
          [Event "write" [Text "Colonnes disponibles dans le fichier :"];
           Event "write" [Labels (names Sample.padded)];
           Event "error"
             [Text "La colonne 'Date - Heure' est introuvable dans le fichier."]]).
Proof.
  split; [reflexivity|].
  by apply (main_stops_without_date Sample.padded Exploration).
Defined.

(** The years of the sample lie between 2016 and 2019. *)
Lemma year_bounds_enclose_witness :
  let ys := [Some 2019; Some 2019; Some 2019; Some 2019; Some 2016; None] in
  Some 2019 ∈ ys
  /\ year_bounds (IntNA ys) = Ok (2016, 2019)
  /\ exists lo hi, year_bounds (IntNA ys) = Ok (lo, hi)
       /\ Some lo ∈ ys /\ Some hi ∈ ys
       /\ forall y, Some y ∈ ys -> lo <= y <= hi.
Proof.
  intros ys. split; [by constructor|]. split; [reflexivity|].
  apply (year_bounds_enclose ys 2019). by constructor.
Defined.

(** The consumption of the sample after the enrichment. *)
Lemma enrich_keeps_columns_witness :
  let w := World [Sample.csv] [] in
  let c := Float64 [1000; 800; 700; 600; 0; 900]%float in
  (heap w !! 0%nat = Some Sample.csv
   /\ distinct (map Strip.strip (names Sample.csv)) = true
   /\ getitem Sample.csv CONSO = Ok c
   /\ Strip.strip CONSO = CONSO
   /\ (enrich 0 w).1 = Ok tt)
  /\ exists f', enrich 0 w = (Ok tt, World (<[0%nat := f']> (heap w)) (display w))
       /\ index f' = index Sample.csv
       /\ getitem f' (Strip.strip CONSO) = Ok c.
Proof.
  intros w c. split; [by repeat split|].
  by apply (enrich_keeps_columns w 0 Sample.csv CONSO c).
Defined.

(** A file of two columns, none of them the region. *)
Lemma main_needs_region_witness :
  let csv := mkFrame [0; 1]
               [(DATE, Object [Some "2019-01-15 12:00:00"; Some "n/a"]%string);
                (CONSO, Float64 [1000; 800]%float)] in
  (well_formed csv = true
   /\ distinct (map Strip.strip (names csv)) = true
   /\ to_datetime [Some "2019-01-15 12:00:00"; Some "n/a"]%string
      = Ok (Reference.read_as None)
   /\ existsb (String.eqb REGION) (map Strip.strip (names csv)) = false)
  /\ (main csv Accueil (Some "Bretagne") (2018, 2023) start).1
     = Raise (KeyError REGION).
Proof.
  intros csv. split; [by repeat split|].
  by apply (main_needs_region csv
              [Some "2019-01-15 12:00:00"; Some "n/a"]%string
              (Reference.read_as None)).
Defined.


(** The winter rows of the sample: rows 0, 1 and 4. *)
Lemma select_months_rows_witness :
  (well_formed Sample.enriched = true
   /\ getitem Sample.enriched DATE
      = Ok (Datetime [Some (mkTs 2019 1 15 12 0 0); Some (mkTs 2019 1 15 12 0 0);
                      Some (mkTs 2019 7 1 12 0 0); Some (mkTs 2019 7 1 12 0 0);
                      Some (mkTs 2016 2 1 0 0 0); None]))
  /\ select_months Sample.enriched [12; 1; 2]
     = Ok (bool_index Sample.enriched [true; true; false; false; true; false])
  /\ exists g, select_months Sample.enriched [12; 1; 2] = Ok g
       /\ rows g = List.filter (row_in_months [12; 1; 2]) (rows Sample.enriched).
Proof.
  split; [by split|]. split; [reflexivity|].
  eapply select_months_rows; reflexivity.
Defined.

(** The rows of the scenario for Bretagne and Occitanie: rows 0 and 4. *)
Lemma scenario_rows_exact_witness :
  let top := ["Bretagne"; "Occitanie"]%string in
  (well_formed Sample.enriched = true
   /\ getitem Sample.enriched REGION
      = Ok (Object [Some "Bretagne"; Some "Normandie"; Some "Bretagne";
                    Some "Normandie"; Some "Occitanie"; Some "Bretagne"]))
  /\ scenario_rows Sample.enriched top
     = Ok (bool_index Sample.enriched [true; false; false; false; true; false])
  /\ exists g, scenario_rows Sample.enriched top = Ok g
       /\ rows g = List.filter
                     (fun r => row_in_months [1; 2] r && row_in_regions top r)
                     (rows Sample.enriched).
Proof.
  intros top. split; [by split|]. split; [reflexivity|].
  eapply scenario_rows_exact; reflexivity.
Defined.

(** Two of three deltas are negative. *)
Lemma negative_count_is_histogram_witness :
  let f := mkFrame [0; 1; 2] [("delta"%string, Float64 [-50; 400; -300]%float)] in
  let neg := [true; false; true] in
  (well_formed f = true
   /\ getitem f "delta" = Ok (Float64 [-50; 400; -300]%float)
   /\ series_negative (Float64 [-50; 400; -300]%float) = Ok neg)
  /\ length (List.filter id neg) = 2%nat
  /\ length (List.filter id neg) = length (rows (bool_index f neg)).
Proof.
  intros f neg. split; [by repeat split|]. split; [reflexivity|].
  by apply (negative_count_is_histogram f (Float64 [-50; 400; -300]%float) neg).
Defined.

(** The sample has three timestamps; the row without a date is in none of
    the three sums. *)
Lemma national_one_row_per_timestamp_witness :
  let ts := [Some (mkTs 2019 1 15 12 0 0); Some (mkTs 2019 1 15 12 0 0);
             Some (mkTs 2019 7 1 12 0 0); Some (mkTs 2019 7 1 12 0 0);
             Some (mkTs 2016 2 1 0 0 0); None] in
  let ps := [950; 1200; 400; 900; 50; 100]%float in
  let cs := [1000; 800; 700; 600; 0; 900]%float in
  (getitem Sample.enriched DATE = Ok (Datetime ts)
   /\ getitem Sample.enriched PROD = Ok (Float64 ps)
   /\ getitem Sample.enriched CONSO = Ok (Float64 cs))
  /\ exists n keys,
       national Sample.enriched = Ok n
       /\ keys = [mkTs 2016 2 1 0 0 0; mkTs 2019 1 15 12 0 0; mkTs 2019 7 1 12 0 0]
       /\ getitem n CONSO = Ok (Float64 [0; 1800; 1300]%float)
       /\ StronglySorted ts_lt keys.
Proof.
  intros ts ps cs. split; [by repeat split|].
  destruct (national_one_row_per_timestamp Sample.enriched ts ps cs)
    as (n & keys & Hn & _ & Hk & Hs & _ & Hc & _); try reflexivity.
  exists n, keys. split; [exact Hn|].
  assert (E : keys = [mkTs 2016 2 1 0 0 0; mkTs 2019 1 15 12 0 0;
                      mkTs 2019 7 1 12 0 0]).
  { injection Hn as <-. injection Hk as Hk.
    apply (f_equal (omap id)) in Hk.
    assert (Hid : forall l : list Timestamp, omap id (map Some l) = l).
    { induction l as [|a l IH]; [done|]. cbn. by f_equal. }
    rewrite Hid in Hk. rewrite <- Hk. reflexivity. }
  split; [exact E|]. split; [|exact Hs].
  rewrite Hc, E. reflexivity.
Defined.

(** The sample has two years. *)
Lemma yearly_one_row_per_year_witness :
  let ys := [Some 2019; Some 2019; Some 2019; Some 2019; Some 2016; None] in
  let xs := [0; 0; 0; 0; 0; 0]%float in
  (getitem Sample.enriched ANNEE = Ok (IntNA ys)
   /\ getitem Sample.enriched "Pompage (MW)" = Ok (Float64 xs))
  /\ exists g years,
       groupby_reset group_mean Sample.enriched ANNEE ["Pompage (MW)"%string] = Ok g
       /\ index g = range_index (length years)
       /\ getitem g ANNEE = Ok (IntNA (map Some years))
       /\ StronglySorted Z.lt years
       /\ (forall y, y ∈ years <-> Some y ∈ ys)
       /\ getitem g "Pompage (MW)"
          = Ok (Float64 (map (fun y => group_mean
                                         (select (map (fun o => bool_decide (o = Some y)) ys) xs))
                             years)).
Proof.
  intros ys xs. split; [by split|].
  by apply (yearly_one_row_per_year Sample.enriched ys xs).
Defined.

(** The mean consumption of the three regions of the sample. *)
Lemma region_series_sorted_witness :
  let ks := [Some "Bretagne"; Some "Normandie"; Some "Bretagne";
             Some "Normandie"; Some "Occitanie"; Some "Bretagne"]%string in
  let xs := [1000; 800; 700; 600; 0; 900]%float in
  (getitem Sample.enriched REGION = Ok (Object ks)
   /\ getitem Sample.enriched CONSO = Ok (Float64 xs))
  /\ (s ← groupby_region group_mean Sample.enriched CONSO; Ok (sort_values s))
     = Ok [("Occitanie"%string, 0%float); ("Normandie"%string, 700%float);
           ("Bretagne"%string, ((1000 + 700 + 900) / 3)%float)]
  /\ exists s,
       groupby_region group_mean Sample.enriched CONSO = Ok s
       /\ sort_values s ≡ₚ s
       /\ NoDup (map fst (sort_values s))
       /\ (forall r, r ∈ map fst (sort_values s) <-> Some r ∈ ks)
       /\ StronglySorted (fun a b => ascending a b = true) (sort_values s).
Proof.
  intros ks xs. split; [by split|]. split; [reflexivity|].
  by apply (region_series_sorted Sample.enriched CONSO ks xs).
Defined.

(** A selection without rows: the mean autonomy is NaN and the page
    reports a good autonomy. *)
Lemma synthese_undefined_autonomy_witness :
  let empty := bool_index Sample.enriched (repeat false 6) in
  let w := World [Sample.enriched; empty] [] in
  (filter_rows Sample.enriched (Some "Bretagne") (2023, 2018) = Ok empty
   /\ heap w !! 1%nat = Some empty
   /\ getitem empty "Autonomie" = Ok (Float64 [])
   /\ getitem empty DELTA_PC = Ok (Float64 [])
   /\ dependance empty = Ok nan
   /\ F64.is_nan (round_to (nanmean [] * 100)%float 1) = true)
  /\ exists header rest,
       display (page_synthese 0 1 w).2
       = display w
         ++ [header;
             Event "metric" [Number (round_to (nanmean [] * 100)%float 1)];
             Event "metric" [Number (round_to (nanmean []) 0)];
             Event "metric" [Number (round_to (nan * 100)%float 1)];
             Event "markdown" []; Event "subheader" [];
             Event "success" []]
         ++ rest.
Proof.
  intros empty w. split; [by repeat split|].
  by apply (synthese_undefined_autonomy w 0 1 empty [] [] nan).
Defined.

(** Two selections, one winter page. *)
Lemma selection_ignored_witness :
  (FocusHiver = Accueil \/ FocusHiver = FocusHiver \/ FocusHiver = FocusENR
   \/ FocusHiver = Conclusion)
  /\ (main Sample.csv FocusHiver (Some "Bretagne") (2018, 2023) start).1
     = (main Sample.csv FocusHiver (Some "Occitanie") (2016, 2016) start).1
  /\ display (main Sample.csv FocusHiver (Some "Bretagne") (2018, 2023) start).2
     = display (main Sample.csv FocusHiver (Some "Occitanie") (2016, 2016) start).2.
Proof.
  split; [by right; left|].
  apply (selection_ignored Sample.csv FocusHiver); by right; left.
Defined.

(** The renewable production of the first row of the sample:
    0 + 350 + 50 + 50. *)
Lemma prod_enr_rows_witness :
  let so := [0; 0; 100; 50; 30; 0]%float in
  let eo := [350; 50; 100; 0; 0; 40]%float in
  let hy := [50; 50; 50; 50; 20; 10]%float in
  let bi := [50; 0; 50; 0; 0; 0]%float in
  (well_formed Sample.enriched = true
   /\ getitem Sample.enriched "Solaire (MW)" = Ok (Float64 so)
   /\ getitem Sample.enriched "Eolien (MW)" = Ok (Float64 eo)
   /\ getitem Sample.enriched "Hydraulique (MW)" = Ok (Float64 hy)
   /\ getitem Sample.enriched "Bioénergies (MW)" = Ok (Float64 bi))
  /\ exists ds, sum_rows Sample.enriched ENR = Ok (Float64 ds)
       /\ length ds = 6%nat
       /\ ds !! 0%nat = Some (row_sum [0; 350; 50; 50]%float)
       /\ row_sum [0; 350; 50; 50]%float = 450%float.
Proof.
  intros so eo hy bi. split; [by repeat split|].
  destruct (prod_enr_rows Sample.enriched so eo hy bi)
    as (ds & Hs & Hlen & Hrow); try reflexivity.
  exists ds. split; [exact Hs|]. split; [exact Hlen|].
  split; [by apply (Hrow 0%nat) | reflexivity].
Defined.

(** The sample on the page Exploration for Bretagne, 2018 to 2023: rows 0
    and 2 are shown and offered. *)
Lemma exploration_shows_filter_witness :
  let g := bool_index Sample.enriched [true; false; true; false; false; false] in
  (distinct (map Strip.strip (names Sample.csv)) = true
   /\ (main Sample.csv Exploration (Some "Bretagne") (2018, 2023) start).1 = Ok tt)
  /\ heap (main Sample.csv Exploration (Some "Bretagne") (2018, 2023) start).2
     = [Sample.enriched; g]
  /\ exists f' g shown d,
       enrich 0 (World [Sample.csv] shown) = (Ok tt, World [f'] shown)
       /\ filter_rows f' (Some "Bretagne") (2018, 2023) = Ok g
       /\ (main Sample.csv Exploration (Some "Bretagne") (2018, 2023) start).2
          = World [f'; g]
              (d ++ [Event "dataframe" [Table g];
                     Event "download_button" [Table g]]).
Proof.
  intros g. split; [by split|]. split; [reflexivity|].
  by apply (exploration_shows_filter Sample.csv (Some "Bretagne") (2018, 2023)).
Defined.
